(** * zmq2mjpeg: the object-detection wrapper [objdetect.py]

    A shallow embedding of [ObjDetect] and the properties of its
    post-processing pipeline.

    Conventions of the model.
    - Confidence scores, box coordinates and pixel intensities are floats
      in the source.  The code only compares scores and stores them, so a
      score is modelled by the rational it denotes ([Q]); comparison of
      finite floats agrees with comparison of these rationals.  NaN and the
      rounding of float arithmetic are outside the model.
    - Python exceptions are results [Raise e]; a call that raises returns
      nothing else.
    - The dictionary built by [detect_frame] is a [gmap string Q].
    - Objects mutated in place (the frame handed to [draw_boxes], the
      process-wide random generator) are threaded as explicit state. *)

From Stdlib Require Import ZArith QArith Qround Lqa.
From stdpp Require Import gmap strings list fin_maps sorting pretty.

Local Open Scope Z_scope.

(** ** Exceptions *)

Inductive error : Type :=
  | InvalidInput     (* cv2.error: empty or malformed frame *)
  | InferenceError   (* the interpreter failed *)
  | IndexError       (* sequence index out of range *)
  | TypeError.       (* e.g. subscript of None *)

Inductive result (A : Type) : Type :=
  | Ok (a : A)
  | Raise (e : error).
Arguments Ok {A} a.
Arguments Raise {A} e.

#[global] Instance result_ret : MRet result := fun A a => Ok a.
#[global] Instance result_bind : MBind result := fun A B k r =>
  match r with
  | Ok a => k a
  | Raise e => Raise e
  end.

(** [seq[i]] for a non-negative position [i]. *)
Definition index {A} (l : list A) (i : nat) : result A :=
  match l !! i with
  | Some a => Ok a
  | None => Raise IndexError
  end.

(** [for i in range(n): s = body i s], stopping at the first exception. *)
Fixpoint for_each {I S} (body : I → S → result S) (idxs : list I) (s : S)
  : result S :=
  match idxs with
  | [] => Ok s
  | i :: rest => s' ← body i s ; for_each body rest s'
  end.

Definition for_range {S} (n : nat) (body : nat → S → result S) (s : S)
  : result S :=
  for_each body (seq 0 n) s.

(** ** Comparison of scores *)

Definition Qltb (x y : Q) : bool := negb (Qle_bool y x).

(** ** numpy arrays of rank 0 and 1 *)

(** [np.squeeze] drops every axis of length one, so a tensor with a single
    candidate collapses to a 0-d array, which cannot be subscripted. *)
Inductive ndarray (A : Type) : Type :=
  | Arr0 (a : A)
  | Arr1 (l : list A).
Arguments Arr0 {A} a.
Arguments Arr1 {A} l.

Definition nd_index {A} (a : ndarray A) (i : nat) : result A :=
  match a with
  | Arr0 _ => Raise IndexError
  | Arr1 l => index l i
  end.

Definition nd_map {A B} (f : A → B) (a : ndarray A) : ndarray B :=
  match a with
  | Arr0 x => Arr0 (f x)
  | Arr1 l => Arr1 (f <$> l)
  end.

(** ** The result filter, [non_max_suppression] *)

(** ymin, xmin, ymax, xmax *)
Definition box : Type := Q * Q * Q * Q.

(** A row [boxes[i]] of the squeezed box tensor: a box, or a single
    coordinate when the tensor held one box only and was squeezed to its
    four coordinates. *)
Inductive row : Type :=
  | Box (b : box)
  | Coord (q : Q).

(** out_scores, out_boxes, out_classes *)
Definition outputs : Type := list Q * list row * list Z.

(** One iteration of the loop of [non_max_suppression].  [scores] is
    [None] for Python's [None]: the test then succeeds and the append of
    [scores[i]] raises. *)
Definition nms_body (scores : option (ndarray Q)) (boxes : list row)
    (classes : ndarray Z) (min_score_thresh : Q) (i : nat) (out : outputs)
  : result outputs :=
  let '(out_scores, out_boxes, out_classes) := out in
  match scores with
  | None =>
      _ ← index boxes i; Raise TypeError
  | Some sc =>
      s ← nd_index sc i;
      if Qltb min_score_thresh s then
        b ← index boxes i;
        c ← nd_index classes i;
        Ok (out_scores ++ [s], out_boxes ++ [b], out_classes ++ [c])
      else Ok out
  end.

(** [max_boxes] is a Python int; it is falsy exactly when it is [0]. *)
Definition non_max_suppression (scores : option (ndarray Q))
    (boxes : list row) (classes : ndarray Z) (max_boxes : Z)
    (min_score_thresh : Q) : result outputs :=
  let shape0 := Z.of_nat (length boxes) in
  let max_boxes := if decide (max_boxes = 0) then shape0 else max_boxes in
  for_range (Z.to_nat (Z.min max_boxes shape0))
    (nms_body scores boxes classes min_score_thresh) ([], [], []).

(** ** Frames and the OpenCV calls *)

(** Three 8-bit channels. *)
Definition color : Type := Z * Z * Z.

(** A frame: [height] rows of [width] pixels. *)
Definition Mat : Type := list (list color).

Definition height (img : Mat) : nat := length img.
Definition width (img : Mat) : nat :=
  match img with
  | [] => O
  | r :: _ => length r
  end.

(** [img.size == 0] *)
Definition img_empty (img : Mat) : bool :=
  bool_decide (height img = O) || bool_decide (width img = O).

(** [cv2.cvtColor(image, cv2.COLOR_BGR2RGB)]: a new array with the first
    and third channel exchanged.  OpenCV asserts that the source is not
    empty and raises [cv2.error] otherwise. *)
Definition cvtColor_BGR2RGB (img : Mat) : result Mat :=
  if img_empty img then Raise InvalidInput
  else Ok (fmap (M := list) (λ '(b, g, r), (r, g, b)) <$> img).

(** The remaining OpenCV entry points are used as a black box: resampling
    and rasterisation (with the font, scale, thickness and line type the
    source fixes).  The drawing calls return the frame as it is after the
    in-place update.  The calls are taken to return: their own error
    paths (a size that is not positive, a frame that cannot be written)
    are not modelled, and no statement below is about them. *)
Class Cv2 : Type := {
  cv2_resize : Mat → Z * Z → Mat;
  cv2_rectangle : Mat → Z * Z → Z * Z → color → Z → Mat;
  cv2_getTextSize : string → Z * Z;
  cv2_putText : Mat → string → Z * Z → color → Mat;
}.

(** The model input: batch, rows, columns, three float channels. *)
Definition tensor : Type := list (list (list (Q * Q * Q))).

Definition normalise (p : color) : Q * Q * Q :=
  let '(r, g, b) := p in
  let f (x : Z) : Q := ((2 / 255) * inject_Z x - 1)%Q in
  (f r, f g, f b).

Definition preprocess_image_for_tflite `{cv : Cv2} (image : Mat)
    (model_image_size : Z) : result tensor :=
  image ← cvtColor_BGR2RGB image;
  let image := cv2_resize image (model_image_size, model_image_size) in
  let batch := [image] in
  Ok (fmap (M := list) (fmap (M := list) normalise) <$> batch).

(** ** The detector object *)

Definition class_names : list string :=
  ["None1"; "person"; "bicycle"; "car"; "motorbike"; "airplane"; "bus";
   "train"; "truck"; "boat"; "traffic light"; "fire hydrant"; "None12";
   "stop sign"; "parking meter"; "bench"; "bird"; "cat"; "dog"; "horse";
   "sheep"; "cow"; "elephant"; "bear"; "zebra"; "giraffe"; "None";
   "backpack"; "umbrella"; "None29"; "Noe30"; "handbag"; "tie"; "suitcase";
   "frisbee"; "skis"; "snowboard"; "sports ball"; "kite"; "baseball bat";
   "baseball glove"; "skateboard"; "surfboard"; "tennis racket"; "bottle";
   "None45"; "wine glass"; "cup"; "fork"; "knife"; "spoon"; "bowl";
   "banana"; "apple"; "sandwich"; "orange"; "broccoli"; "carrot";
   "hot dog"; "pizza"; "donut"; "cake"; "chair"; "sofa"; "pottedplant";
   "bed"; "None66"; "diningtable"; "None68"; "None69"; "toilet"; "None71";
   "tvmonitor"; "laptop"; "mouse"; "remote"; "keyboard"; "cell phone";
   "microwave"; "oven"; "toaster"; "sink"; "refrigerator"; "None83";
   "book"; "clock"; "vase"; "scissors"; "teddy bear"; "hair drier";
   "toothbrush"]%string.

(** What the interpreter leaves in its first three output tensors for one
    input: boxes (1,N,4), classes (1,N), scores (1,N); the batch axis of
    length one is implicit. *)
Definition raw_outputs : Type := list box * list Q * list Q.

(** [self]: the attributes set by [__init__].  [class_names] is the fixed
    catalog above; [interpreter] stands for set_tensor, invoke and the
    three get_tensor calls. *)
Record ObjDetect : Type := {
  min_score : Q;
  valid_labels : list string;
  interpreter : tensor → result raw_outputs;
  colors : list color;
}.

(** [seq[i]] for a Python list and a signed index: negative positions
    count from the end. *)
Definition py_index {A} (l : list A) (i : Z) : result A :=
  let n := Z.of_nat (length l) in
  if decide (0 ≤ i) then index l (Z.to_nat i)
  else if decide (- n ≤ i) then index l (Z.to_nat (n + i))
  else Raise IndexError.

(** ** Inference and its post-processing, [run_detection] *)

(** [np.squeeze] on a (1,N) tensor. *)
Definition squeeze {A} (t : list A) : ndarray A :=
  match t with
  | [a] => Arr0 a
  | _ => Arr1 t
  end.

(** [np.squeeze] on the (1,N,4) box tensor: shape (N,4), or (4,) for a
    single box. *)
Definition squeeze_boxes (t : list box) : list row :=
  match t with
  | [(ymin, xmin, ymax, xmax)] => [Coord ymin; Coord xmin; Coord ymax; Coord xmax]
  | _ => Box <$> t
  end.

(** [astype(np.int32)] of a float: truncation towards zero.  This and the
    exact [+ 1] of [run_detection] agree with the single-precision
    arithmetic of the source for integral class ids below 2^24 in
    magnitude; statements about the value of a class index are made for
    such ids only. *)
Definition astype_int32 (x : Q) : Z := Z.quot (Qnum x) (Z.pos (Qden x)).

Definition run_detection (self : ObjDetect) (image : tensor)
  : result outputs :=
  '(boxes, classes, scores) ← interpreter self image;
  let boxes := squeeze_boxes boxes in
  let scores := squeeze scores in
  let classes := nd_map astype_int32 (squeeze ((λ c, c + 1)%Q <$> classes)) in
  non_max_suppression (Some scores) boxes classes 10 0.5%Q.

(** ** Label filter and aggregation *)

(** [self.valid_labels and predicted_class not in self.valid_labels] *)
Definition label_rejected (self : ObjDetect) (predicted_class : string)
  : bool :=
  bool_decide (valid_labels self ≠ [])
  && bool_decide (predicted_class ∉ valid_labels self).

(** [reversed(list(enumerate(out_classes)))] *)
Definition reversed_enumerate {A} (l : list A) : list (nat * A) :=
  reverse (imap (λ i c, (i, c)) l).

(** The body of the loop of [detect_frame]. *)
Definition detect_body (self : ObjDetect) (out_scores : list Q)
    (ic : nat * Z) (detections : gmap string Q) : result (gmap string Q) :=
  let '(i, c) := ic in
  predicted_class ← py_index class_names c;
  if label_rejected self predicted_class then Ok detections
  else
    score ← index out_scores i;
    if Qltb score (min_score self) then Ok detections
    else Ok (<[predicted_class := score]> detections).

(** The loop itself, from an empty dictionary. *)
Definition aggregate (self : ObjDetect) (out_scores : list Q)
    (out_classes : list Z) : result (gmap string Q) :=
  for_each (detect_body self out_scores) (reversed_enumerate out_classes) ∅.

(** ** Annotation, [draw_boxes] *)

(** [int(x)] for a float: truncation towards zero. *)
Definition py_int (x : Q) : Z := Z.quot (Qnum x) (Z.pos (Qden x)).

(** Rounding to the nearest integer, ties to even. *)
Definition round_half_even (x : Q) : Z :=
  let n := Qfloor x in
  let r := (x - inject_Z n)%Q in
  if Qltb r (1 # 2)%Q then n
  else if Qltb (1 # 2)%Q r then n + 1
  else if Z.even n then n else n + 1.

(** ['{:.2f}'.format(x)] *)
Definition format_2f (x : Q) : string :=
  let n := Z.abs (round_half_even (x * 100)%Q) in
  let frac := n mod 100 in
  ((if Qltb x 0%Q then "-" else "") +:+ pretty (n / 100) +:+ "."
    +:+ (if decide (frac < 10) then "0" else "") +:+ pretty frac)%string.

(** ['{} {:.2f}'.format(predicted_class, score)] *)
Definition format_label (predicted_class : string) (score : Q) : string :=
  (predicted_class +:+ " " +:+ format_2f score)%string.

(** [np.floor(x + 0.5).astype('int32')], for values inside the 32-bit
    range. *)
Definition floor_half (x : Q) : Z := Qfloor (x + (1 # 2))%Q.

(** [tuple(reversed(c))] *)
Definition reversed_color (c : color) : color :=
  let '(r, g, b) := c in (b, g, r).

(** One iteration of the loop of [draw_boxes]: everything that can raise
    is evaluated before the first drawing call.  ([left'] and [right']
    are the source's [left] and [right].) *)
Definition draw_body `{cv : Cv2} (self : ObjDetect) (h w : Z)
    (out_scores : list Q) (out_boxes : list row) (ic : nat * Z)
    (image : Mat) : result Mat :=
  let '(i, c) := ic in
  predicted_class ← py_index class_names c;
  if label_rejected self predicted_class then Ok image
  else
    box ← index out_boxes i;
    score ← index out_scores i;
    let label := format_label predicted_class score in
    '(ymin, xmin, ymax, xmax) ←
      match box with
      | Box b => Ok b
      | Coord _ => Raise TypeError
      end;
    let '(left', right', top, bottom) :=
      (xmin * inject_Z w, xmax * inject_Z w,
       ymin * inject_Z h, ymax * inject_Z h)%Q in
    let top := Z.max 0 (floor_half top) in
    let left' := Z.max 0 (floor_half left') in
    let bottom := Z.min h (floor_half bottom) in
    let right' := Z.min w (floor_half right') in
    col ← py_index (colors self) c;
    let image :=
      cv2_rectangle image (left', top) (right', bottom) (reversed_color col) 6 in
    let label_size := cv2_getTextSize label in
    let '(label_rect_left, label_rect_top) := (left' - 3, top - 3) in
    let '(label_rect_right, label_rect_bottom) :=
      (left' + 3 + label_size.1, top - 5 - label_size.2) in
    let image :=
      cv2_rectangle image (label_rect_left, label_rect_top)
        (label_rect_right, label_rect_bottom) (reversed_color col) (-1) in
    Ok (cv2_putText image label (left', top - 4) (0, 0, 0)).

(** A loop over an object mutated in place: when an iteration raises, the
    object stays as the earlier iterations left it. *)
Fixpoint for_each_inplace {I S} (body : I → S → result S) (idxs : list I)
    (s : S) : S * result () :=
  match idxs with
  | [] => (s, Ok ())
  | i :: rest =>
      match body i s with
      | Ok s' => for_each_inplace body rest s'
      | Raise e => (s, Raise e)
      end
  end.

(** Returns the frame as the call leaves it, and whether it raised. *)
Definition draw_boxes `{cv : Cv2} (self : ObjDetect) (image : Mat)
    (out_scores : list Q) (out_boxes : list row) (out_classes : list Z)
  : Mat * result () :=
  let h := Z.of_nat (height image) in
  let w := Z.of_nat (width image) in
  for_each_inplace (draw_body self h w out_scores out_boxes)
    (reversed_enumerate out_classes) image.

(** ** The per-frame entry point, [detect_frame] *)

(** Returns the frame object as the call leaves it, together with the
    returned dictionary or the exception raised. *)
Definition detect_frame `{cv : Cv2} (self : ObjDetect) (frame : Mat)
    (draw : bool) : Mat * result (gmap string Q) :=
  match preprocess_image_for_tflite frame 300 with
  | Raise e => (frame, Raise e)
  | Ok image_data =>
      match run_detection self image_data with
      | Raise e => (frame, Raise e)
      | Ok (out_scores, out_boxes, out_classes) =>
          match aggregate self out_scores out_classes with
          | Raise e => (frame, Raise e)
          | Ok detections =>
              if draw then
                match draw_boxes self frame out_scores out_boxes out_classes with
                | (frame', Ok _) => (frame', Ok detections)
                | (frame', Raise e) => (frame', Raise e)
                end
              else (frame, Ok detections)
          end
      end
  end.

(** ** The colour table, [generate_colors] *)

(** [colorsys.hsv_to_rgb] *)
Definition hsv_to_rgb (h s v : Q) : Q * Q * Q :=
  if Qeq_bool s 0 then (v, v, v)
  else
    let i := py_int (h * 6) in
    let f := (h * 6 - inject_Z i)%Q in
    let p := (v * (1 - s))%Q in
    let q := (v * (1 - s * f))%Q in
    let t := (v * (1 - s * (1 - f)))%Q in
    let i := i mod 6 in
    if decide (i = 0) then (v, t, p)
    else if decide (i = 1) then (q, v, p)
    else if decide (i = 2) then (p, v, t)
    else if decide (i = 3) then (p, q, v)
    else if decide (i = 4) then (t, p, v)
    else (v, p, q).

(** The generator behind Python's [random] module, used as a black box:
    [rng_seed a] is the state after [random.seed(a)], [randbelow n] is
    [Random._randbelow(n)], which returns a number in [range(n)]. *)
Class PyRandom : Type := {
  rng_state : Type;
  rng_seed : Z → rng_state;
  randbelow : nat → rng_state → nat * rng_state;
  randbelow_lt : ∀ n st, (0 < n)%nat → ((randbelow n st).1 < n)%nat;
}.

(** [x[i], x[j] = x[j], x[i]] *)
Definition swap {A} (x : list A) (i j : nat) : result (list A) :=
  xj ← index x j;
  xi ← index x i;
  Ok (<[j := xi]> (<[i := xj]> x)).

(** [random.shuffle(x)]: [for i in reversed(range(1, len(x)))], here with
    the positions still to visit in [idxs].  Returns the generator state
    reached as well. *)
Fixpoint shuffle_loop `{rnd : PyRandom} {A} (idxs : list nat) (x : list A)
    (st : rng_state) : rng_state * result (list A) :=
  match idxs with
  | [] => (st, Ok x)
  | i :: rest =>
      let '(j, st) := randbelow (i + 1) st in
      match swap x i j with
      | Ok x => shuffle_loop rest x st
      | Raise e => (st, Raise e)
      end
  end.

Definition shuffle `{rnd : PyRandom} {A} (x : list A) (st : rng_state)
  : rng_state * result (list A) :=
  shuffle_loop (reverse (seq 1 (length x - 1))) x st.

(** [st] is the state of the process-wide generator at the call and
    [entropy] the state that [random.seed(None)] draws from the operating
    system; the state after the call is returned with the colours. *)
Definition generate_colors `{rnd : PyRandom} (class_names : list string)
    (st entropy : rng_state) : rng_state * result (list color) :=
  let n := length class_names in
  let hsv_tuples :=
    (λ x : nat, (inject_Z (Z.of_nat x) / inject_Z (Z.of_nat n), 1, 1)%Q)
      <$> seq 0 n in
  let colors := (λ '(h, s, v), hsv_to_rgb h s v) <$> hsv_tuples in
  let colors :=
    (λ '(r, g, b), (py_int (r * 255), py_int (g * 255), py_int (b * 255)))
      <$> colors in
  let st := rng_seed 10101 in
  match shuffle colors st with
  | (_, Ok colors) => (entropy, Ok colors)
  | (st, Raise e) => (st, Raise e)
  end.

(** [__init__], given the interpreter loaded from [model_path]. *)
Definition init `{rnd : PyRandom} (interp : tensor → result raw_outputs)
    (valid_labels : option (list string)) (min_score : Q)
    (st entropy : rng_state) : rng_state * result ObjDetect :=
  match generate_colors class_names st entropy with
  | (st, Ok colors) =>
      (st, Ok {| min_score := min_score;
                 valid_labels := default [] valid_labels;
                 interpreter := interp;
                 colors := colors |})
  | (st, Raise e) => (st, Raise e)
  end.

(** ** Vocabulary of the statements *)

(** [scores[i]] and [classes[i]] where they are defined. *)
Definition score_at (scores : option (ndarray Q)) (i : nat) : option Q :=
  match scores with
  | Some (Arr1 sc) => sc !! i
  | _ => None
  end.

Definition class_at (classes : ndarray Z) (i : nat) : option Z :=
  match classes with
  | Arr1 cl => cl !! i
  | Arr0 _ => None
  end.

(** Position [i] holds a score above the threshold. *)
Definition passes (scores : option (ndarray Q)) (min_score_thresh : Q)
    (i : nat) : bool :=
  match score_at scores i with
  | Some s => Qltb min_score_thresh s
  | None => false
  end.

(** The positions among the first [n] whose score passes, ascending. *)
Definition kept (scores : option (ndarray Q)) (min_score_thresh : Q)
    (n : nat) : list nat :=
  filter (λ i, passes scores min_score_thresh i) (seq 0 n).

(** [out] holds the scores, boxes and classes found at the positions
    [idxs], in that order. *)
Definition collected (scores : option (ndarray Q)) (boxes : list row)
    (classes : ndarray Z) (idxs : list nat) (out : outputs) : Prop :=
  Forall2 (λ i s, score_at scores i = Some s) idxs out.1.1 ∧
  Forall2 (λ i b, boxes !! i = Some b) idxs out.1.2 ∧
  Forall2 (λ i c, class_at classes i = Some c) idxs out.2.

(** The number of positions [non_max_suppression] visits. *)
Definition nms_range (boxes : list row) (max_boxes : Z) : nat :=
  let shape0 := Z.of_nat (length boxes) in
  Z.to_nat (Z.min (if decide (max_boxes = 0) then shape0 else max_boxes) shape0).

(** The detection at position [i] with class [c] is written to the
    dictionary as [label ↦ s]: the label resolves, passes the allow-list,
    and the score is not below the minimum. *)
Definition accepted (self : ObjDetect) (out_scores : list Q) (ic : nat * Z)
    (label : string) (s : Q) : Prop :=
  py_index class_names ic.2 = Ok label
  ∧ label_rejected self label = false
  ∧ out_scores !! ic.1 = Some s
  ∧ Qltb s (min_score self) = false.

(** A colour channel in the 8-bit range. *)
Definition channel_ok (c : color) : Prop :=
  let '(r, g, b) := c in
  (0 ≤ r ≤ 255) ∧ (0 ≤ g ≤ 255) ∧ (0 ≤ b ≤ 255).

(** The colours of [generate_colors] before the shuffle. *)
Definition hue_wheel (n : nat) : list color :=
  (λ '(r, g, b), (py_int (r * 255), py_int (g * 255), py_int (b * 255)))
    <$> ((λ '(h, s, v), hsv_to_rgb h s v)
    <$> ((λ x : nat, (inject_Z (Z.of_nat x) / inject_Z (Z.of_nat n), 1, 1)%Q)
    <$> seq 0 n)).

(** ** Sample data *)

Definition unit_box : row := Box (0, 0, 1, 1)%Q.

(** Twelve candidates, all confident. *)
Definition twelve_scores : list Q := replicate 12 0.9%Q.
Definition twelve_boxes : list row := replicate 12 unit_box.
Definition twelve_classes : list Z := replicate 12 3.

(** Four candidates around the threshold 0.5. *)
Definition four_scores : list Q := [0.9; 0.4; 0.5; 0.6]%Q.
Definition four_boxes : list row :=
  [Box (0, 0, 1, 1); Box (0, 0, 2, 2); Box (0, 0, 3, 3); Box (0, 0, 4, 4)]%Q.
Definition four_classes : list Z := [1; 2; 3; 4].

(** A stand-in for the OpenCV black box, to run the pipeline on examples:
    resampling repeats the top-left pixel, drawing paints it. *)
Definition paint (image : Mat) (c : color) : Mat :=
  match image with
  | (_ :: r) :: rows => (c :: r) :: rows
  | _ => image
  end.

Definition sample_cv2 : Cv2 := {|
  cv2_resize image dsize :=
    replicate (Z.to_nat dsize.2)
      (replicate (Z.to_nat dsize.1) (default (0, 0, 0) (head image ≫= head)));
  cv2_rectangle image pt1 pt2 c thickness := paint image c;
  cv2_getTextSize label := (20 * Z.of_nat (String.length label), 22);
  cv2_putText image label org c := paint image c;
|}.

Definition sample_frame : Mat := [[(10, 20, 30); (40, 50, 60)]].

(** A detector whose interpreter answers [raw] for every input. *)
Definition sample_detector (min_score : Q) (valid_labels : list string)
    (raw : raw_outputs) : ObjDetect :=
  {| min_score := min_score;
     valid_labels := valid_labels;
     interpreter := λ _, Ok raw;
     colors := replicate 91 (255, 0, 0) |}.

(** A car at 0.7 and a dog at 0.9 (raw class ids 2 and 17). *)
Definition car_and_dog : raw_outputs :=
  ([(0, 0, 1, 1); (0, 0, 1, 1)]%Q, [inject_Z 2; inject_Z 17], [0.7; 0.9]%Q).





(** A person at 0.91 and a dog at 0.3 (raw class ids 0 and 17). *)
Definition person_and_dog : raw_outputs :=
  ([(0, 0, 1, 1); (0, 0, 1, 1)]%Q, [inject_Z 0; inject_Z 17], [0.91; 0.3]%Q).

(** A stand-in for Python's generator, to run [generate_colors] on
    examples: a linear congruential sequence. *)
Lemma lcg_below (n : nat) (st : Z) :
  (0 < n)%nat → (Z.to_nat (st mod Z.of_nat n) < n)%nat.
Proof.
  intros Hn. pose proof (Z.mod_pos_bound st (Z.of_nat n)). lia.
Qed.

Definition sample_random : PyRandom := {|
  rng_state := Z;
  rng_seed a := a;
  randbelow n st :=
    (Z.to_nat (st mod Z.of_nat n), (st * 1103515245 + 12345) mod 2147483648);
  randbelow_lt := lcg_below;
|}.

(** The entries of three parallel sequences that [non_max_suppression]
    keeps when it visits the first [n] positions. *)
Definition nms_rows (sc : list Q) (boxes : list row) (cl : list Z)
    (n : nat) (min_score_thresh : Q) : list (Q * row * Z) :=
  filter (λ r, Qltb min_score_thresh r.1.1) (take n (zip (zip sc boxes) cl)).


(** The same detector with another minimum score. *)
Definition with_min_score (m : Q) (self : ObjDetect) : ObjDetect :=
  {| min_score := m;
     valid_labels := valid_labels self;
     interpreter := interpreter self;
     colors := colors self |}.

(** ** The plain preprocessing, [preprocess_image] *)

(** [np.array(image, dtype='float32')] on one pixel: 8-bit values are
    exact in single precision. *)
Definition to_float32 (p : color) : Q * Q * Q :=
  let '(r, g, b) := p in (inject_Z r, inject_Z g, inject_Z b).

(** [model_image_size] is not used: the resize is commented out in the
    source. *)
Definition preprocess_image (image : Mat) (model_image_size : Z * Z)
  : result tensor :=
  image ← cvtColor_BGR2RGB image;
  let image := fmap (M := list) (fmap (M := list) to_float32) image in
  Ok [image].

(** A normalised channel value. *)
Definition unit_range (p : Q * Q * Q) : Prop :=
  let '(r, g, b) := p in
  (-1 <= r <= 1)%Q ∧ (-1 <= g <= 1)%Q ∧ (-1 <= b <= 1)%Q.

(** * Properties *)

(** ** Comparison of scores *)

Lemma Qltb_lt x y : Qltb x y = true ↔ (x < y)%Q.
Proof.
  unfold Qltb. rewrite negb_true_iff, <- not_true_iff_false, Qle_bool_iff.
  split; [apply Qnot_le_lt | apply Qlt_not_le].
Qed.

Lemma Qltb_ge x y : Qltb x y = false ↔ (y <= x)%Q.
Proof.
  unfold Qltb. rewrite negb_false_iff. apply Qle_bool_iff.
Qed.

(** ** Loops *)

Lemma bind_Ok {A B} (r : result A) (k : A → result B) (b : B) :
  r ≫= k = Ok b → ∃ a, r = Ok a ∧ k a = Ok b.
Proof. destruct r as [a|e]; [eauto | discriminate]. Qed.

Lemma index_Ok {A} (l : list A) (i : nat) (a : A) :
  index l i = Ok a ↔ l !! i = Some a.
Proof. unfold index. destruct (l !! i); split; congruence. Qed.

Lemma index_lt {A} (l : list A) (i : nat) :
  (i < length l)%nat → ∃ a, index l i = Ok a.
Proof.
  intros Hi. destruct (lookup_lt_is_Some_2 l i Hi) as [a Ha].
  exists a. by apply index_Ok.
Qed.

Lemma for_each_cons {I S} (body : I → S → result S) i (l : list I) (s : S) :
  for_each body (i :: l) s = body i s ≫= for_each body l.
Proof. done. Qed.

Lemma for_each_app {I S} (body : I → S → result S) (l1 l2 : list I) (s : S) :
  for_each body (l1 ++ l2) s = for_each body l1 s ≫= for_each body l2.
Proof.
  revert s. induction l1 as [|i l1 IH]; intros s; simpl; [done|].
  destruct (body i s) as [s'|e]; simpl; [apply IH | done].
Qed.

Lemma for_range_S {S} (n : nat) (body : nat → S → result S) (s : S) :
  for_range (Datatypes.S n) body s = for_range n body s ≫= body n.
Proof.
  unfold for_range. rewrite seq_S, for_each_app. simpl.
  destruct (for_each body (seq 0 n) s) as [s'|e]; simpl; [|done].
  by destruct (body n s').
Qed.

(** ** The result filter *)

Section nms.
Context (scores : option (ndarray Q)) (boxes : list row)
  (classes : ndarray Z) (min_score_thresh : Q).

Lemma kept_S n :
  kept scores min_score_thresh (S n)
  = kept scores min_score_thresh n
    ++ (if passes scores min_score_thresh n then [n] else []).
Proof.
  unfold kept. rewrite seq_S, filter_app. f_equal. simpl.
  rewrite filter_cons, filter_nil.
  by destruct (passes scores min_score_thresh n).
Qed.

Lemma elem_of_kept n i :
  i ∈ kept scores min_score_thresh n ↔
  (i < n)%nat ∧ ∃ s, score_at scores i = Some s ∧ (min_score_thresh < s)%Q.
Proof.
  unfold kept. rewrite list_elem_of_filter, elem_of_seq. unfold passes.
  destruct (score_at scores i) as [s|].
  - rewrite Is_true_true, Qltb_lt. split.
    + intros [? ?]. split; [lia|eauto].
    + intros [? (s' & [= <-] & ?)]. split; [done|lia].
  - split; [intros [[] _] | intros [_ (s & [=] & _)]].
Qed.

Lemma kept_sorted n : StronglySorted lt (kept scores min_score_thresh n).
Proof.
  induction n as [|n IH]; [constructor|].
  rewrite kept_S. apply StronglySorted_app. split_and!; [|done|].
  - intros i j [Hi _]%elem_of_kept Hj.
    destruct (passes scores min_score_thresh n).
    + apply list_elem_of_singleton in Hj. lia.
    + by apply elem_of_nil in Hj.
  - destruct (passes scores min_score_thresh n); repeat constructor.
Qed.

Lemma length_kept n : (length (kept scores min_score_thresh n) ≤ n)%nat.
Proof.
  unfold kept. etransitivity; [apply length_filter|]. by rewrite length_seq.
Qed.

Lemma nms_body_Ok i out out' :
  nms_body scores boxes classes min_score_thresh i out = Ok out' →
  ∃ s, score_at scores i = Some s ∧
    if Qltb min_score_thresh s then
      ∃ b c, boxes !! i = Some b ∧ class_at classes i = Some c ∧
        out' = (out.1.1 ++ [s], out.1.2 ++ [b], out.2 ++ [c])
    else out' = out.
Proof.
  destruct out as [[os ob] oc]. unfold nms_body, score_at, class_at.
  destruct scores as [[a|sc]|]; simpl.
  - discriminate.
  - intros H. apply bind_Ok in H as (s & Hs & H).
    apply index_Ok in Hs. exists s. split; [done|].
    destruct (Qltb min_score_thresh s); [|congruence].
    apply bind_Ok in H as (b & Hb & H). apply bind_Ok in H as (c & Hc & H).
    apply index_Ok in Hb. exists b, c. destruct classes as [?|cl]; simpl in *.
    + discriminate.
    + apply index_Ok in Hc. split_and!; congruence.
  - intros H. apply bind_Ok in H as (? & _ & ?). discriminate.
Qed.

Lemma nms_loop_collected n out :
  for_range n (nms_body scores boxes classes min_score_thresh) ([], [], [])
    = Ok out →
  collected scores boxes classes (kept scores min_score_thresh n) out.
Proof.
  revert out. induction n as [|n IH]; intros out.
  - intros [= <-]. by repeat split; constructor.
  - rewrite for_range_S. intros H. apply bind_Ok in H as (out0 & H0 & H).
    specialize (IH _ H0) as (IHs & IHb & IHc).
    apply nms_body_Ok in H as (s & Hs & H).
    rewrite kept_S. unfold passes. rewrite Hs.
    destruct (Qltb min_score_thresh s).
    + destruct H as (b & c & Hb & Hc & ->). simpl.
      repeat split; apply Forall2_app; auto.
    + subst out0. rewrite !app_nil_r. by repeat split.
Qed.

End nms.

Lemma nms_collected scores boxes classes max_boxes thresh out :
  non_max_suppression scores boxes classes max_boxes thresh = Ok out →
  collected scores boxes classes
    (kept scores thresh (nms_range boxes max_boxes)) out.
Proof. apply nms_loop_collected. Qed.


Lemma nms_range_0 boxes : nms_range boxes 0 = length boxes.
Proof. unfold nms_range. rewrite decide_True by done. lia. Qed.

Lemma nms_range_nonzero boxes k :
  k ≠ 0 → nms_range boxes k = Z.to_nat (Z.min k (Z.of_nat (length boxes))).
Proof. intros Hk. unfold nms_range. by rewrite decide_False. Qed.

Lemma collected_length scores boxes classes idxs out :
  collected scores boxes classes idxs out →
  length out.1.1 = length idxs ∧ length out.1.2 = length idxs
  ∧ length out.2 = length idxs.
Proof.
  intros (Hs & Hb & Hc).
  apply Forall2_length in Hs, Hb, Hc. by rewrite <- Hs, <- Hb, <- Hc.
Qed.

(** The scores that leave [non_max_suppression] are above the threshold. *)
Lemma nms_scores_above scores boxes classes max_boxes thresh out :
  non_max_suppression scores boxes classes max_boxes thresh = Ok out →
  Forall (λ s, (thresh < s)%Q) out.1.1.
Proof.
  intros (Hs & _)%nms_collected.
  apply Forall_forall. intros s Hin.
  apply list_elem_of_lookup in Hin as [j Hj].
  destruct (Forall2_lookup_r _ _ _ _ _ Hs Hj) as (i & Hi & His).
  apply list_elem_of_lookup_2, elem_of_kept in Hi as (_ & s' & Hs' & Hlt).
  congruence.
Qed.

Lemma nms_length_classes scores boxes classes max_boxes thresh out :
  non_max_suppression scores boxes classes max_boxes thresh = Ok out →
  (length out.2 ≤ nms_range boxes max_boxes)%nat.
Proof.
  intros (_ & _ & Hc)%nms_collected%collected_length. rewrite Hc.
  apply length_kept.
Qed.

(** C1.  [non_max_suppression] with [max_boxes = 0] visits the whole box
    sequence (the call equals the one with [max_boxes = len(boxes)]) and
    returns at most [len(boxes)] entries; with [max_boxes = k > 0] it
    returns at most [min(k, len(boxes))] entries.  The three returned
    sequences have the same length. *)
Theorem non_max_suppression_cap scores boxes classes (k : Z) thresh
    out_scores out_boxes out_classes :
  non_max_suppression scores boxes classes k thresh
    = Ok (out_scores, out_boxes, out_classes) →
  length out_scores = length out_boxes
  ∧ length out_classes = length out_boxes
  ∧ (k = 0 → (length out_boxes ≤ length boxes)%nat)
  ∧ (0 < k →
     (length out_boxes ≤ Z.to_nat (Z.min k (Z.of_nat (length boxes))))%nat)
  ∧ non_max_suppression scores boxes classes 0 thresh
    = non_max_suppression scores boxes classes (Z.of_nat (length boxes)) thresh.
Proof.
  intros H. apply nms_collected, collected_length in H as (Hs & Hb & Hc).
  simpl in *. pose proof (length_kept scores thresh (nms_range boxes k)) as Hk.
  split_and!; try congruence.
  - intros ->. rewrite nms_range_0 in *. lia.
  - intros Hpos. rewrite nms_range_nonzero in * by lia. lia.
  - unfold non_max_suppression. simpl.
    by destruct (decide (Z.of_nat (length boxes) = 0)).
Qed.

Lemma non_max_suppression_cap_witness :
  non_max_suppression (Some (Arr1 twelve_scores)) twelve_boxes
    (Arr1 twelve_classes) 0 0.5%Q
  = Ok (twelve_scores, twelve_boxes, twelve_classes)
  ∧ length twelve_boxes = 12%nat
  ∧ (length twelve_boxes ≤ length twelve_boxes)%nat
  ∧ non_max_suppression (Some (Arr1 twelve_scores)) twelve_boxes
      (Arr1 twelve_classes) 0 0.5%Q
    = non_max_suppression (Some (Arr1 twelve_scores)) twelve_boxes
        (Arr1 twelve_classes) (Z.of_nat (length twelve_boxes)) 0.5%Q.
Proof.
  split; [reflexivity|]. split; [reflexivity|].
  destruct (non_max_suppression_cap (Some (Arr1 twelve_scores)) twelve_boxes
              (Arr1 twelve_classes) 0 0.5%Q
              twelve_scores twelve_boxes twelve_classes)
    as (_ & _ & Hcap & _ & Hfull); [reflexivity|].
  split; [by apply Hcap | exact Hfull].
Defined.

(** C2.  Every score returned by [non_max_suppression] is strictly above
    the threshold, and the returned entries are exactly those found at the
    visited positions whose score is strictly above it, taken in ascending
    position: relative order is that of the input. *)
Theorem non_max_suppression_threshold scores boxes classes (k : Z) thresh
    out_scores out_boxes out_classes :
  non_max_suppression scores boxes classes k thresh
    = Ok (out_scores, out_boxes, out_classes) →
  Forall (λ s, (thresh < s)%Q) out_scores
  ∧ ∃ idxs : list nat,
      StronglySorted lt idxs
      ∧ collected scores boxes classes idxs
          (out_scores, out_boxes, out_classes)
      ∧ ∀ i, i ∈ idxs ↔
          (i < nms_range boxes k)%nat
          ∧ ∃ s, score_at scores i = Some s ∧ (thresh < s)%Q.
Proof.
  intros H. split.
  - by apply nms_scores_above in H.
  - exists (kept scores thresh (nms_range boxes k)). split_and!.
    + apply kept_sorted.
    + by apply nms_collected.
    + apply elem_of_kept.
Qed.

Lemma non_max_suppression_threshold_witness :
  non_max_suppression (Some (Arr1 four_scores)) four_boxes
    (Arr1 four_classes) 10 0.5%Q
  = Ok ([0.9; 0.6]%Q, [Box (0, 0, 1, 1); Box (0, 0, 4, 4)]%Q, [1; 4])
  ∧ Forall (λ s, (0.5 < s)%Q) [0.9; 0.6]%Q.
Proof.
  split; [reflexivity|].
  apply (non_max_suppression_threshold (Some (Arr1 four_scores)) four_boxes
           (Arr1 four_classes) 10 0.5%Q
           [0.9; 0.6]%Q [Box (0, 0, 1, 1); Box (0, 0, 4, 4)]%Q [1; 4]).
  reflexivity.
Defined.

(** ** Label filter and aggregation *)

Lemma label_rejected_false self label :
  label_rejected self label = false ↔
  valid_labels self = [] ∨ label ∈ valid_labels self.
Proof.
  unfold label_rejected. rewrite andb_false_iff, !bool_decide_eq_false.
  split; (intros [?|?]; [left|right]); try done.
  - by destruct (decide (valid_labels self = [])).
  - by destruct (decide (label ∈ valid_labels self)).
  - congruence.
  - auto.
Qed.

Section aggregate.
Context (self : ObjDetect) (out_scores : list Q).

Lemma detect_body_Ok ic d d' :
  detect_body self out_scores ic d = Ok d' →
  (d' = d ∧ ∀ label s, ¬ accepted self out_scores ic label s)
  ∨ (∃ label s, accepted self out_scores ic label s ∧ d' = <[label := s]> d).
Proof.
  destruct ic as [i c]. unfold detect_body, accepted. simpl.
  intros H. apply bind_Ok in H as (label & Hl & H). rewrite Hl.
  destruct (label_rejected self label) eqn:Hrej.
  { injection H as <-. left. split; [done|]. intros ?? ([= <-] & ? & _).
    congruence. }
  apply bind_Ok in H as (s & Hs%index_Ok & H). rewrite Hs.
  destruct (Qltb s (min_score self)) eqn:Hlt; injection H as <-.
  - left. split; [done|]. intros ?? (_ & _ & [= <-] & ?). congruence.
  - right. by exists label, s.
Qed.

Lemma detect_body_accepted ic d label s :
  accepted self out_scores ic label s →
  detect_body self out_scores ic d = Ok (<[label := s]> d).
Proof.
  destruct ic as [i c]. unfold detect_body, accepted. simpl.
  intros (-> & Hrej & Hs & Hlt). simpl. rewrite Hrej.
  apply index_Ok in Hs. by rewrite Hs; simpl; rewrite Hlt.
Qed.

(** Every entry of the result was there at the start or was written by
    an accepted item. *)
Lemma for_each_detect_lookup items d0 d label s :
  for_each (detect_body self out_scores) items d0 = Ok d →
  d !! label = Some s →
  d0 !! label = Some s
  ∨ ∃ ic, ic ∈ items ∧ accepted self out_scores ic label s.
Proof.
  revert d0. induction items as [|ic items IH]; intros d0; simpl.
  - intros [= <-]. auto.
  - intros H Hd. apply bind_Ok in H as (d1 & H1 & H).
    destruct (IH _ H Hd) as [Hd1|(ic' & Hin & Hacc)].
    + apply detect_body_Ok in H1 as [[-> _]|(l' & s' & Hacc & ->)]; [auto|].
      destruct (decide (l' = label)) as [->|Hne].
      * rewrite lookup_insert_eq in Hd1. injection Hd1 as ->.
        right. exists ic. split; [left|done].
      * rewrite lookup_insert_ne in Hd1 by done. auto.
    + right. exists ic'. split; [by right|done].
Qed.

(** Items that do not write [label] leave its entry alone. *)
Lemma for_each_detect_untouched items d0 d label :
  for_each (detect_body self out_scores) items d0 = Ok d →
  (∀ ic s, ic ∈ items → ¬ accepted self out_scores ic label s) →
  d !! label = d0 !! label.
Proof.
  revert d0. induction items as [|ic items IH]; intros d0; simpl.
  - by intros [= <-].
  - intros H Hno. apply bind_Ok in H as (d1 & H1 & H).
    rewrite (IH _ H) by (intros ???; apply Hno; by right).
    apply detect_body_Ok in H1 as [[-> _]|(l' & s' & Hacc & ->)]; [done|].
    destruct (decide (l' = label)) as [->|Hne].
    + exfalso. eapply Hno; [left|done].
    + by rewrite lookup_insert_ne.
Qed.

Lemma for_each_detect_size items d0 d :
  for_each (detect_body self out_scores) items d0 = Ok d →
  (size d ≤ size d0 + length items)%nat.
Proof.
  revert d0. induction items as [|ic items IH]; intros d0; simpl.
  - intros [= <-]. lia.
  - intros H. apply bind_Ok in H as (d1 & H1 & H). apply IH in H.
    apply detect_body_Ok in H1 as [[-> _]|(l' & s' & _ & ->)]; [lia|].
    destruct (d0 !! l') eqn:Hl.
    + rewrite map_size_insert_Some in H by eauto. lia.
    + rewrite map_size_insert_None in H by done. lia.
Qed.
End aggregate.

Lemma elem_of_reversed_enumerate {A} (l : list A) (i : nat) (c : A) :
  (i, c) ∈ reversed_enumerate l ↔ l !! i = Some c.
Proof.
  unfold reversed_enumerate. rewrite elem_of_reverse, elem_of_lookup_imap.
  split.
  - intros (j & y & [= -> ->] & ?). done.
  - intros ?. by exists i, c.
Qed.

Lemma length_reversed_enumerate {A} (l : list A) :
  length (reversed_enumerate l) = length l.
Proof. unfold reversed_enumerate. by rewrite length_reverse, length_imap. Qed.

(** The reversed enumeration visits position [i] after all later
    positions and before all earlier ones. *)
Lemma reversed_enumerate_split {A} (l : list A) (i : nat) (c : A) :
  l !! i = Some c →
  ∃ later earlier,
    reversed_enumerate l = later ++ (i, c) :: earlier
    ∧ ∀ j c', (j, c') ∈ earlier → (j < i)%nat ∧ l !! j = Some c'.
Proof.
  intros Hi. apply list_elem_of_split_length in Hi as (l1 & l2 & -> & ->).
  unfold reversed_enumerate. rewrite imap_app. simpl.
  rewrite reverse_app, reverse_cons, <- app_assoc. simpl.
  eexists _, _. rewrite Nat.add_0_r. split; [done|].
  intros j c' Hin. apply elem_of_reverse, elem_of_lookup_imap in Hin
    as (j' & y & [= -> ->] & Hj).
  split; [by eapply lookup_lt_Some|]. by apply lookup_app_l_Some.
Qed.

Lemma aggregate_lookup self out_scores out_classes d label s :
  aggregate self out_scores out_classes = Ok d →
  d !! label = Some s →
  ∃ i c, out_classes !! i = Some c ∧ accepted self out_scores (i, c) label s.
Proof.
  intros H Hd.
  destruct (for_each_detect_lookup _ _ _ _ _ _ _ H Hd) as [?|([i c] & Hin & ?)].
  - by rewrite lookup_empty in *.
  - exists i, c. split; [|done]. by apply elem_of_reversed_enumerate.
Qed.

(** The earliest accepted detection of a label decides its entry. *)
Lemma aggregate_earliest self out_scores out_classes d i c label s :
  aggregate self out_scores out_classes = Ok d →
  out_classes !! i = Some c →
  accepted self out_scores (i, c) label s →
  (∀ j c' s', (j < i)%nat → out_classes !! j = Some c' →
     ¬ accepted self out_scores (j, c') label s') →
  d !! label = Some s.
Proof.
  intros H Hi Hacc Hearlier. unfold aggregate in H.
  destruct (reversed_enumerate_split _ _ _ Hi) as (later & earlier & Heq & Hlt).
  rewrite Heq, for_each_app in H. apply bind_Ok in H as (d1 & _ & H).
  rewrite for_each_cons in H. apply bind_Ok in H as (d2 & H2 & H).
  rewrite (detect_body_accepted _ _ _ _ _ _ Hacc) in H2. injection H2 as <-.
  rewrite (for_each_detect_untouched _ _ _ _ _ label H).
  - apply lookup_insert_eq.
  - intros [j c'] s' Hin. destruct (Hlt _ _ Hin). eauto.
Qed.

Section aggregate_dom.
Context (self : ObjDetect) (out_scores : list Q).

Lemma for_each_detect_dom_mono items d0 d label :
  for_each (detect_body self out_scores) items d0 = Ok d →
  is_Some (d0 !! label) → is_Some (d !! label).
Proof.
  revert d0. induction items as [|ic items IH]; intros d0; simpl.
  - by intros [= <-].
  - intros H Hd0. apply bind_Ok in H as (d1 & H1 & H).
    apply (IH _ H).
    apply detect_body_Ok in H1 as [[-> _]|(l' & s' & _ & ->)]; [done|].
    rewrite lookup_insert. by case_decide.
Qed.

Lemma for_each_detect_accepted_dom items d0 d ic label s :
  for_each (detect_body self out_scores) items d0 = Ok d →
  ic ∈ items → accepted self out_scores ic label s →
  is_Some (d !! label).
Proof.
  revert d0. induction items as [|ic' items IH]; intros d0 H Hin Hacc.
  - by apply elem_of_nil in Hin.
  - rewrite for_each_cons in H. apply bind_Ok in H as (d1 & H1 & H).
    apply elem_of_cons in Hin as [<-|Hin]; [|by eapply IH].
    rewrite (detect_body_accepted _ _ _ _ _ _ Hacc) in H1.
    injection H1 as <-.
    apply (for_each_detect_dom_mono _ _ _ _ H).
    rewrite lookup_insert_eq. by eexists.
Qed.
End aggregate_dom.






(** ** The pipeline of [detect_frame] *)

Lemma run_detection_Ok self image out :
  run_detection self image = Ok out →
  ∃ boxes classes scores,
    interpreter self image = Ok (boxes, classes, scores)
    ∧ non_max_suppression (Some (squeeze scores)) (squeeze_boxes boxes)
        (nd_map astype_int32 (squeeze ((λ c, c + 1)%Q <$> classes)))
        10 0.5%Q = Ok out.
Proof.
  unfold run_detection. intros H.
  apply bind_Ok in H as ([[boxes classes] scores] & Hi & H). eauto 6.
Qed.

Lemma detect_frame_Ok `{cv : Cv2} self frame draw frame' d :
  detect_frame self frame draw = (frame', Ok d) →
  ∃ image out_scores out_boxes out_classes,
    preprocess_image_for_tflite frame 300 = Ok image
    ∧ run_detection self image = Ok (out_scores, out_boxes, out_classes)
    ∧ aggregate self out_scores out_classes = Ok d.
Proof.
  unfold detect_frame.
  destruct (preprocess_image_for_tflite frame 300) as [image|] eqn:Hp; [|done].
  destruct (run_detection self image) as [[[ss bs] cs]|] eqn:Hr; [|done].
  destruct (aggregate self ss cs) as [d'|] eqn:Ha; [|done].
  intros Hd. exists image, ss, bs, cs. split_and!; [done..|].
  rewrite Ha. f_equal. destruct draw; [|by injection Hd].
  destruct (draw_boxes self frame ss bs cs) as [? []]; by injection Hd.
Qed.

(** C4.  When a non-empty allow-list is configured every key of the
    dictionary returned by [detect_frame] belongs to it; with an empty
    allow-list every filtered detection whose label resolves and whose
    score is not below the minimum contributes its label.  With allow-list
    ["car"] and minimum 0.6, the detections car:0.7 and dog:0.9 aggregate
    to exactly {"car": 0.7}. *)
Theorem detect_frame_allow_list `{cv : Cv2} self frame draw frame' d :
  detect_frame self frame draw = (frame', Ok d) →
  (valid_labels self ≠ [] →
     ∀ label, label ∈ dom d → label ∈ valid_labels self)
  ∧ (valid_labels self = [] →
     ∀ image out_scores out_boxes out_classes i c label s,
       preprocess_image_for_tflite frame 300 = Ok image →
       run_detection self image = Ok (out_scores, out_boxes, out_classes) →
       out_classes !! i = Some c → py_index class_names c = Ok label →
       out_scores !! i = Some s → (min_score self <= s)%Q →
       label ∈ dom d)
  ∧ aggregate (sample_detector 0.6 ["car"%string] car_and_dog)
      [0.7; 0.9]%Q [3; 18]
    = Ok {["car"%string := 0.7%Q]}.
Proof.
  intros Hd. apply detect_frame_Ok in Hd as (image & ss & bs & cs & Hp & Hr & Ha).
  split_and!.
  - intros Hne label [s Hs]%elem_of_dom.
    destruct (aggregate_lookup _ _ _ _ _ _ Ha Hs) as (i & c & _ & _ & Hrej & _).
    apply label_rejected_false in Hrej as [?|?]; [congruence|done].
  - intros Hnil image' ss' bs' cs' i c label s Hp' Hr' Hc Hl Hs Hmin.
    rewrite Hp in Hp'. injection Hp' as <-.
    rewrite Hr in Hr'. injection Hr' as <- <- <-.
    apply elem_of_dom.
    eapply (for_each_detect_accepted_dom _ _ _ _ _ (i, c)); [exact Ha| |].
    + by apply elem_of_reversed_enumerate.
    + split_and!; [done| |done|by apply Qltb_ge].
      apply label_rejected_false. by left.
  - by vm_compute.
Qed.

Lemma detect_frame_allow_list_witness :
  detect_frame (cv := sample_cv2)
    (sample_detector 0.6 ["car"%string] car_and_dog) sample_frame false
  = (sample_frame, Ok {["car"%string := 0.7%Q]})
  ∧ ∀ label, label ∈ dom ({["car"%string := 0.7%Q]} : gmap string Q) →
      label ∈ ["car"%string].
Proof.
  split; [by vm_compute|].
  apply (detect_frame_allow_list (cv := sample_cv2)
           (sample_detector 0.6 ["car"%string] car_and_dog)
           sample_frame false sample_frame {["car"%string := 0.7%Q]});
    by vm_compute.
Defined.

(** C5.  In the aggregation loop of [detect_frame] a detection that
    passed the label test is skipped exactly when its score is strictly
    below [min_score]; a score equal to [min_score] is written; and every
    value of the resulting dictionary is at least [min_score]. *)
Theorem aggregate_min_score self out_scores out_classes d :
  aggregate self out_scores out_classes = Ok d →
  (∀ label s, d !! label = Some s → (min_score self <= s)%Q)
  ∧ (∀ i c label s d0,
       py_index class_names c = Ok label →
       label_rejected self label = false →
       out_scores !! i = Some s →
       ((s < min_score self)%Q →
          detect_body self out_scores (i, c) d0 = Ok d0)
       ∧ (¬ (s < min_score self)%Q →
          detect_body self out_scores (i, c) d0 = Ok (<[label := s]> d0))
       ∧ ((s == min_score self)%Q →
          detect_body self out_scores (i, c) d0 = Ok (<[label := s]> d0))).
Proof.
  intros Ha. split.
  - intros label s Hs.
    destruct (aggregate_lookup _ _ _ _ _ _ Ha Hs) as (i & c & _ & _ & _ & _ & Hge).
    by apply Qltb_ge.
  - intros i c label s d0 Hl Hrej Hs.
    assert (∀ b, Qltb s (min_score self) = b →
      detect_body self out_scores (i, c) d0
      = Ok (if b then d0 else <[label := s]> d0)) as Hbody.
    { intros b Hb. unfold detect_body. rewrite Hl. simpl. rewrite Hrej.
      apply index_Ok in Hs. rewrite Hs. simpl. rewrite Hb. by destruct b. }
    split_and!.
    + intros Hlt%Qltb_lt. by apply (Hbody true).
    + intros Hnlt. apply (Hbody false).
      apply not_true_is_false. by rewrite Qltb_lt.
    + intros Heq. apply (Hbody false). apply Qltb_ge. rewrite Heq.
      apply Qle_refl.
Qed.

Lemma aggregate_min_score_witness :
  aggregate (sample_detector 0.6 [] car_and_dog) [0.6; 0.59]%Q [3; 18]
  = Ok {["car"%string := 0.6%Q]}
  ∧ ∀ label s, ({["car"%string := 0.6%Q]} : gmap string Q) !! label = Some s →
      (0.6 <= s)%Q.
Proof.
  split; [by vm_compute|].
  apply (aggregate_min_score (sample_detector 0.6 [] car_and_dog)
           [0.6; 0.59]%Q [3; 18] {["car"%string := 0.6%Q]}).
  by vm_compute.
Defined.

(** C8.  [detect_frame] always filters with [max_boxes = 10] and
    [min_score_thresh = 0.5]: whatever [min_score] is configured, the
    returned dictionary has at most ten entries and each of its scores is
    strictly above 0.5. *)
Theorem detect_frame_hidden_floor `{cv : Cv2} self frame draw frame' d :
  detect_frame self frame draw = (frame', Ok d) →
  (size d ≤ 10)%nat ∧ ∀ label s, d !! label = Some s → (0.5 < s)%Q.
Proof.
  intros Hd. apply detect_frame_Ok in Hd as (image & ss & bs & cs & _ & Hr & Ha).
  apply run_detection_Ok in Hr as (boxes & classes & scores & _ & Hn).
  split.
  - apply for_each_detect_size in Ha.
    rewrite map_size_empty, length_reversed_enumerate in Ha.
    apply nms_length_classes in Hn. simpl in Hn.
    rewrite nms_range_nonzero in Hn by done. lia.
  - intros label s Hs.
    destruct (aggregate_lookup _ _ _ _ _ _ Ha Hs) as (i & c & _ & _ & _ & Hi & _).
    apply nms_scores_above in Hn. simpl in *.
    by apply (Forall_lookup_1 _ _ _ _ Hn Hi).
Qed.

Lemma detect_frame_hidden_floor_witness :
  detect_frame (cv := sample_cv2) (sample_detector 0.1 [] person_and_dog)
    sample_frame false
  = (sample_frame, Ok {["person"%string := 0.91%Q]})
  ∧ (size ({["person"%string := 0.91%Q]} : gmap string Q) ≤ 10)%nat
  ∧ ∀ label s,
      ({["person"%string := 0.91%Q]} : gmap string Q) !! label = Some s →
      (0.5 < s)%Q.
Proof.
  split; [by vm_compute|].
  apply (detect_frame_hidden_floor (cv := sample_cv2)
           (sample_detector 0.1 [] person_and_dog)
           sample_frame false sample_frame {["person"%string := 0.91%Q]}).
  by vm_compute.
Defined.

(** ** Inference post-processing *)

Lemma score_at_squeeze (scores : list Q) i s :
  score_at (Some (squeeze scores)) i = Some s → scores !! i = Some s.
Proof. by destruct scores as [|? [|]]. Qed.

Lemma class_at_squeeze (classes : list Q) i c :
  class_at (nd_map astype_int32 (squeeze ((λ c, c + 1)%Q <$> classes))) i
    = Some c →
  ∃ raw, classes !! i = Some raw ∧ c = astype_int32 (raw + 1).
Proof.
  assert (∀ l : list Q,
    (astype_int32 <$> ((λ c, c + 1)%Q <$> l)) !! i = Some c →
    ∃ raw, l !! i = Some raw ∧ c = astype_int32 (raw + 1)) as Hmap.
  { intros l. rewrite <- list_fmap_compose, list_lookup_fmap.
    destruct (l !! i) as [raw|]; [|done]. intros [= <-]. by exists raw. }
  destruct classes as [|? [|]]; [apply Hmap | done | apply Hmap].
Qed.


(** ** Preprocessing *)

(** C9.  On an empty (zero-sized) frame [preprocess_image_for_tflite]
    raises the invalid-input error of OpenCV's colour conversion and
    returns no tensor. *)
Theorem preprocess_empty_frame `{cv : Cv2} (frame : Mat) (model_image_size : Z) :
  img_empty frame = true →
  preprocess_image_for_tflite frame model_image_size = Raise InvalidInput.
Proof.
  intros Hempty. unfold preprocess_image_for_tflite, cvtColor_BGR2RGB.
  by rewrite Hempty.
Qed.

Lemma preprocess_empty_frame_witness :
  img_empty [[]; []] = true
  ∧ preprocess_image_for_tflite (cv := sample_cv2) [[]; []] 300
    = Raise InvalidInput.
Proof.
  split; [reflexivity|].
  apply (preprocess_empty_frame (cv := sample_cv2) [[]; []] 300).
  reflexivity.
Defined.

(** ** Failure *)

(** C10.  When preprocessing or inference raises, [detect_frame] raises
    the same exception, returns no detections, and leaves the frame as it
    was, whether or not drawing was requested. *)
Theorem detect_frame_failure `{cv : Cv2} self (frame : Mat) (draw : bool) e :
  preprocess_image_for_tflite frame 300 = Raise e
  ∨ (∃ image, preprocess_image_for_tflite frame 300 = Ok image
              ∧ run_detection self image = Raise e) →
  detect_frame self frame draw = (frame, Raise e).
Proof.
  unfold detect_frame. intros [Hp|(image & Hp & Hr)]; rewrite Hp; [done|].
  by rewrite Hr.
Qed.

Lemma detect_frame_failure_witness :
  preprocess_image_for_tflite (cv := sample_cv2) [] 300 = Raise InvalidInput
  ∧ detect_frame (cv := sample_cv2) (sample_detector 0.6 [] car_and_dog)
      [] true
    = ([], Raise InvalidInput).
Proof.
  split; [reflexivity|].
  apply (detect_frame_failure (cv := sample_cv2)
           (sample_detector 0.6 [] car_and_dog) [] true InvalidInput).
  left. reflexivity.
Defined.

(** ** The colour table *)

Lemma py_int_floor (x : Q) : (0 <= x)%Q → py_int x = Qfloor x.
Proof.
  destruct x as [n d]. unfold Qle, py_int, Qfloor. simpl. intros Hn.
  apply Z.quot_div_nonneg; lia.
Qed.

Lemma py_int_channel (x : Q) :
  (0 <= x <= 1)%Q → 0 ≤ py_int (x * 255) ≤ 255.
Proof.
  intros [H0 H1].
  assert (0 <= x * 255)%Q as Hlo by (apply Qmult_le_0_compat; [done|lra]).
  assert (x * 255 <= inject_Z 255)%Q as Hhi.
  { change (inject_Z 255) with 255%Q. lra. }
  rewrite py_int_floor by done. split.
  - rewrite <- (Qfloor_Z 0). by apply Qfloor_resp_le.
  - rewrite <- (Qfloor_Z 255). by apply Qfloor_resp_le.
Qed.

Lemma hsv_to_rgb_unit (h : Q) :
  (0 <= h)%Q →
  let '(r, g, b) := hsv_to_rgb h 1 1 in
  (0 <= r <= 1)%Q ∧ (0 <= g <= 1)%Q ∧ (0 <= b <= 1)%Q.
Proof.
  intros Hh. unfold hsv_to_rgb.
  replace (Qeq_bool 1 0) with false by done.
  assert (0 <= h * 6)%Q as H6 by lra.
  rewrite py_int_floor by done.
  pose proof (Qfloor_le (h * 6)) as Hlo.
  pose proof (Qlt_floor (h * 6)) as Hhi.
  rewrite inject_Z_plus in Hhi. change (inject_Z 1) with 1%Q in Hhi.
  set (f := (h * 6 - inject_Z (Qfloor (h * 6)))%Q).
  assert (0 <= f)%Q as Hf0 by (unfold f; lra).
  assert (f < 1)%Q as Hf1 by (unfold f; lra).
  clearbody f.
  repeat case_decide; repeat split; lra.
Qed.

Lemma hue_wheel_channels (n : nat) : Forall channel_ok (hue_wheel n).
Proof.
  unfold hue_wheel. rewrite !Forall_fmap. apply Forall_forall.
  intros x _. simpl.
  assert (0 <= inject_Z (Z.of_nat x) / inject_Z (Z.of_nat n))%Q as Hh.
  { apply Qmult_le_0_compat; [|apply Qinv_le_0_compat];
      rewrite <- (Zle_Qle 0); lia. }
  pose proof (hsv_to_rgb_unit _ Hh) as Hu.
  destruct (hsv_to_rgb _ 1 1) as [[r g] b]. destruct Hu as (Hr & Hg & Hb).
  unfold channel_ok. auto using py_int_channel.
Qed.

Lemma length_hue_wheel (n : nat) : length (hue_wheel n) = n.
Proof. unfold hue_wheel. by rewrite !length_fmap, length_seq. Qed.

Section shuffle.
Context `{rnd : PyRandom} {A : Type}.

Lemma swap_Ok (x : list A) (i j : nat) :
  (i < length x)%nat → (j < length x)%nat →
  ∃ x', swap x i j = Ok x' ∧ x' ≡ₚ x.
Proof.
  intros Hi Hj.
  destruct (lookup_lt_is_Some_2 x i Hi) as [xi Hxi].
  destruct (lookup_lt_is_Some_2 x j Hj) as [xj Hxj].
  exists (<[j := xi]> (<[i := xj]> x)). split.
  - unfold swap, index. rewrite Hxj. simpl. by rewrite Hxi.
  - by apply Permutation_insert_swap.
Qed.

(** The shuffle never raises and returns a rearrangement of its input. *)
Lemma shuffle_loop_Ok (idxs : list nat) (x : list A) (st : rng_state) :
  Forall (λ i, (i < length x)%nat) idxs →
  ∃ x', (shuffle_loop idxs x st).2 = Ok x' ∧ x' ≡ₚ x.
Proof.
  revert x st. induction idxs as [|i idxs IH]; intros x st Hidx; simpl.
  - by exists x.
  - apply Forall_cons in Hidx as [Hi Hidx].
    pose proof (randbelow_lt (i + 1) st ltac:(lia)) as Hj.
    destruct (randbelow (i + 1) st) as [j st']. simpl in Hj.
    destruct (swap_Ok x i j) as (x1 & -> & Hperm); [lia..|].
    destruct (IH x1 st') as (x' & Hx' & Hperm').
    { eapply Forall_impl; [exact Hidx|]. simpl. intros k.
      by rewrite (Permutation_length Hperm). }
    exists x'. split; [done|]. by etransitivity.
Qed.

Lemma shuffle_Ok (x : list A) (st : rng_state) :
  ∃ x', (shuffle x st).2 = Ok x' ∧ x' ≡ₚ x.
Proof.
  apply shuffle_loop_Ok. apply Forall_forall. intros i.
  rewrite elem_of_reverse, elem_of_seq. lia.
Qed.
End shuffle.

Lemma generate_colors_Ok `{rnd : PyRandom} (class_names : list string)
    (st entropy : rng_state) :
  ∃ colors : list color,
    generate_colors class_names st entropy = (entropy, Ok colors)
    ∧ colors ≡ₚ hue_wheel (length class_names).
Proof.
  unfold generate_colors. fold (hue_wheel (length class_names)).
  destruct (shuffle_Ok (hue_wheel (length class_names)) (rng_seed 10101))
    as (colors & Hsh & Hperm).
  exists colors.
  destruct (shuffle (hue_wheel (length class_names)) (rng_seed 10101))
    as [st1 r]. simpl in Hsh. by subst r.
Qed.

(** [__init__] succeeds and leaves a colour for every class. *)
Lemma init_Ok `{rnd : PyRandom} interp valid_labels' min_score' st entropy :
  ∃ self,
    init interp valid_labels' min_score' st entropy = (entropy, Ok self)
    ∧ min_score self = min_score'
    ∧ valid_labels self = default [] valid_labels'
    ∧ interpreter self = interp
    ∧ length (colors self) = length class_names.
Proof.
  unfold init.
  destruct (generate_colors_Ok class_names st entropy) as (cols & -> & Hperm).
  eexists. split_and!; try done. simpl.
  by rewrite (Permutation_length Hperm), length_hue_wheel.
Qed.

(** C7.  For a list of [N] labels [generate_colors] returns [N] colour
    triples, a rearrangement of the hue wheel, with every channel between
    0 and 255.  The result does not depend on the state of the random
    generator at the call: the shuffle starts from the fixed seed, so any
    two calls on the same labels return the same sequence.  The generator
    is left in the freshly drawn state. *)
Theorem generate_colors_table `{rnd : PyRandom} (class_names : list string)
    (st entropy : rng_state) :
  ∃ colors : list color,
    generate_colors class_names st entropy = (entropy, Ok colors)
    ∧ length colors = length class_names
    ∧ Forall channel_ok colors
    ∧ colors ≡ₚ hue_wheel (length class_names)
    ∧ ∀ st' entropy',
        (generate_colors class_names st' entropy').2 = Ok colors.
Proof.
  destruct (generate_colors_Ok class_names st entropy) as (colors & Hg & Hperm).
  exists colors. split_and!.
  - done.
  - by rewrite (Permutation_length Hperm), length_hue_wheel.
  - rewrite Hperm. apply hue_wheel_channels.
  - done.
  - intros st' entropy'.
    destruct (generate_colors_Ok class_names st' entropy')
      as (colors' & Hg' & _).
    unfold generate_colors in Hg, Hg' |- *.
    destruct (shuffle _ (rng_seed 10101)) as [? []]; simpl; congruence.
Qed.

Lemma generate_colors_table_witness :
  generate_colors (rnd := sample_random)
    ["person"; "bicycle"; "car"; "bus"]%string 7 42
  = (42, Ok [(0, 255, 255); (127, 0, 255); (255, 0, 0); (127, 255, 0)])
  ∧ ∃ colors : list color,
      generate_colors (rnd := sample_random)
        ["person"; "bicycle"; "car"; "bus"]%string 99 0
      = (0, Ok colors)
      ∧ length colors = 4%nat
      ∧ Forall channel_ok colors.
Proof.
  split; [by vm_compute|].
  destruct (generate_colors_table (rnd := sample_random)
              ["person"; "bicycle"; "car"; "bus"]%string 99 0)
    as (colors & Hg & Hlen & Hch & _).
  by exists colors.
Defined.

(** ** More on loops and indexing *)

Lemma for_each_Ok_elem {I S} (body : I → S → result S) (l : list I)
    (s s' : S) (i : I) :
  for_each body l s = Ok s' → i ∈ l → ∃ s1 s2, body i s1 = Ok s2.
Proof.
  revert s. induction l as [|i' l IH]; intros s H Hin.
  - by apply elem_of_nil in Hin.
  - rewrite for_each_cons in H. apply bind_Ok in H as (s1 & H1 & H).
    apply elem_of_cons in Hin as [->|Hin]; eauto.
Qed.

Lemma for_each_total {I S} (body : I → S → result S) (l : list I) (s : S) :
  (∀ i s1, i ∈ l → ∃ s2, body i s1 = Ok s2) →
  ∃ s', for_each body l s = Ok s'.
Proof.
  revert s. induction l as [|i l IH]; intros s Hbody; [by eexists|].
  rewrite for_each_cons. destruct (Hbody i s) as [s2 ->]; [left|]. simpl.
  apply IH. intros ???. apply Hbody. by right.
Qed.

Lemma py_index_Ok_iff {A} (l : list A) (i : Z) :
  (∃ a, py_index l i = Ok a) ↔ - Z.of_nat (length l) ≤ i < Z.of_nat (length l).
Proof.
  unfold py_index. split.
  - intros [a Ha]. repeat case_decide; try done;
      apply index_Ok, lookup_lt_Some in Ha; lia.
  - intros Hi. repeat case_decide; try lia; apply index_lt; lia.
Qed.

(** ** The class shift, end to end *)









(** On success with [draw] set the frame does change. *)
Example detect_frame_draws :
  detect_frame (cv := sample_cv2) (sample_detector 0.6 [] car_and_dog)
    sample_frame true
  = ([[(0, 0, 0); (40, 50, 60)]],
     Ok {["car"%string := 0.7%Q; "dog"%string := 0.9%Q]}).
Proof. by vm_compute. Qed.

(** With a single candidate the squeezed scores cannot be subscripted and
    the call raises. *)
Example run_detection_single_candidate :
  run_detection
    (sample_detector 0.6 [] ([(0, 0, 1, 1)%Q], [inject_Z 0], [0.91%Q])) []
  = Raise IndexError.
Proof. reflexivity. Qed.

(** * Further properties *)

(** ** The result filter on parallel sequences *)

Lemma nms_loop_rows sc boxes cl thresh n :
  (n ≤ length sc)%nat → (n ≤ length boxes)%nat → (n ≤ length cl)%nat →
  for_range n (nms_body (Some (Arr1 sc)) boxes (Arr1 cl) thresh) ([], [], [])
  = Ok ((nms_rows sc boxes cl n thresh).*1.*1,
        (nms_rows sc boxes cl n thresh).*1.*2,
        (nms_rows sc boxes cl n thresh).*2).
Proof.
  induction n as [|n IH]; intros Hs Hb Hc; [done|].
  destruct (lookup_lt_is_Some_2 sc n) as [s Hsn]; [lia|].
  destruct (lookup_lt_is_Some_2 boxes n) as [b Hbn]; [lia|].
  destruct (lookup_lt_is_Some_2 cl n) as [c Hcn]; [lia|].
  assert (nms_rows sc boxes cl (S n) thresh
          = nms_rows sc boxes cl n thresh
            ++ (if Qltb thresh s then [(s, b, c)] else [])) as ->.
  { assert (zip (zip sc boxes) cl !! n = Some (s, b, c)) as Hz.
    { by rewrite !lookup_zip_with, Hsn, Hbn, Hcn. }
    unfold nms_rows. rewrite (take_S_r _ _ _ Hz), filter_app. f_equal.
    rewrite filter_cons, filter_nil. simpl.
    by destruct (Qltb thresh s). }
  rewrite for_range_S, IH by lia.
  unfold nms_body, nd_index, index. simpl. rewrite Hsn. simpl.
  destruct (Qltb thresh s).
  - rewrite Hbn. simpl. rewrite Hcn. simpl. by rewrite !fmap_app.
  - by rewrite app_nil_r.
Qed.

Lemma nms_rows_spec sc boxes cl (max_boxes : Z) thresh :
  length sc = length boxes → length cl = length boxes →
  non_max_suppression (Some (Arr1 sc)) boxes (Arr1 cl) max_boxes thresh
  = Ok ((nms_rows sc boxes cl (nms_range boxes max_boxes) thresh).*1.*1,
        (nms_rows sc boxes cl (nms_range boxes max_boxes) thresh).*1.*2,
        (nms_rows sc boxes cl (nms_range boxes max_boxes) thresh).*2).
Proof.
  intros Hs Hc.
  assert (nms_range boxes max_boxes ≤ length boxes)%nat as Hn.
  { unfold nms_range. case_decide; lia. }
  apply nms_loop_rows; lia.
Qed.

(** On three sequences of one length [non_max_suppression] does not
    raise, and returns the entries of the visited prefix whose score is
    strictly above the threshold. *)
Theorem non_max_suppression_rows sc boxes cl (max_boxes : Z) thresh :
  length sc = length boxes → length cl = length boxes →
  non_max_suppression (Some (Arr1 sc)) boxes (Arr1 cl) max_boxes thresh
  = Ok ((nms_rows sc boxes cl (nms_range boxes max_boxes) thresh).*1.*1,
        (nms_rows sc boxes cl (nms_range boxes max_boxes) thresh).*1.*2,
        (nms_rows sc boxes cl (nms_range boxes max_boxes) thresh).*2).
Proof.
  intros Hs Hc.
  assert (nms_range boxes max_boxes ≤ length boxes)%nat as Hn.
  { unfold nms_range. case_decide; lia. }
  apply nms_loop_rows; lia.
Qed.

Lemma non_max_suppression_rows_witness :
  length four_scores = length four_boxes
  ∧ length four_classes = length four_boxes
  ∧ non_max_suppression (Some (Arr1 four_scores)) four_boxes
      (Arr1 four_classes) 3 0.5%Q
    = Ok ([0.9%Q], [Box (0, 0, 1, 1)%Q], [1]).
Proof.
  split; [reflexivity|]. split; [reflexivity|].
  rewrite (non_max_suppression_rows four_scores four_boxes four_classes
             3 0.5%Q); reflexivity.
Defined.

Lemma nms_range_le boxes k : (nms_range boxes k ≤ length boxes)%nat.
Proof. unfold nms_range. case_decide; lia. Qed.

Lemma nms_rows_scores_above sc boxes cl n thresh :
  Forall (λ r, Qltb thresh r.1.1) (nms_rows sc boxes cl n thresh).
Proof.
  apply Forall_forall. intros r Hr.
  by apply list_elem_of_filter in Hr as [? _].
Qed.

Lemma filter_Forall_id {A} (P : A → Prop) `{!∀ x, Decision (P x)} (l : list A) :
  Forall P l → filter P l = l.
Proof.
  induction 1 as [|x l Hx Hl IH]; [done|].
  by rewrite filter_cons, decide_True, IH.
Qed.

Lemma zip3_fmap {A B C} (l : list (A * B * C)) :
  zip (zip l.*1.*1 l.*1.*2) l.*2 = l.
Proof. induction l as [|[[a b] c] l IH]; [done|]. simpl. by f_equal. Qed.

(** Filtering is idempotent: what [non_max_suppression] returned passes
    unchanged through a second, uncapped call with the same threshold. *)
Theorem non_max_suppression_idempotent sc boxes cl (max_boxes : Z) thresh
    out_scores out_boxes out_classes :
  length sc = length boxes → length cl = length boxes →
  non_max_suppression (Some (Arr1 sc)) boxes (Arr1 cl) max_boxes thresh
    = Ok (out_scores, out_boxes, out_classes) →
  non_max_suppression (Some (Arr1 out_scores)) out_boxes (Arr1 out_classes)
    0 thresh
  = Ok (out_scores, out_boxes, out_classes).
Proof.
  intros Hs Hc. rewrite nms_rows_spec by done.
  set (rows := nms_rows sc boxes cl (nms_range boxes max_boxes) thresh).
  intros [= <- <- <-].
  rewrite nms_rows_spec by (by rewrite !length_fmap).
  rewrite nms_range_0. unfold nms_rows at 1 2 3.
  rewrite zip3_fmap, take_ge by (by rewrite !length_fmap).
  rewrite filter_Forall_id; [done|]. apply nms_rows_scores_above.
Qed.

Lemma non_max_suppression_idempotent_witness :
  non_max_suppression (Some (Arr1 four_scores)) four_boxes
    (Arr1 four_classes) 10 0.5%Q
  = Ok ([0.9; 0.6]%Q, [Box (0, 0, 1, 1); Box (0, 0, 4, 4)]%Q, [1; 4])
  ∧ non_max_suppression (Some (Arr1 [0.9; 0.6]%Q))
      [Box (0, 0, 1, 1); Box (0, 0, 4, 4)]%Q (Arr1 [1; 4]) 0 0.5%Q
    = Ok ([0.9; 0.6]%Q, [Box (0, 0, 1, 1); Box (0, 0, 4, 4)]%Q, [1; 4]).
Proof.
  split; [reflexivity|].
  apply (non_max_suppression_idempotent four_scores four_boxes four_classes
           10 0.5%Q); reflexivity.
Defined.

(** A smaller positive cap returns a prefix of what a larger one returns. *)
Theorem non_max_suppression_cap_prefix sc boxes cl (k k' : Z) thresh :
  length sc = length boxes → length cl = length boxes →
  0 < k ≤ k' →
  ∃ out out',
    non_max_suppression (Some (Arr1 sc)) boxes (Arr1 cl) k thresh = Ok out
    ∧ non_max_suppression (Some (Arr1 sc)) boxes (Arr1 cl) k' thresh = Ok out'
    ∧ out.1.1 `prefix_of` out'.1.1
    ∧ out.1.2 `prefix_of` out'.1.2
    ∧ out.2 `prefix_of` out'.2.
Proof.
  intros Hs Hc Hk. eexists _, _.
  split; [by apply nms_rows_spec|].
  split; [by apply nms_rows_spec|].
  assert (nms_rows sc boxes cl (nms_range boxes k) thresh
          `prefix_of` nms_rows sc boxes cl (nms_range boxes k') thresh)
    as [rest Hrest].
  { rewrite !nms_range_nonzero by lia. unfold nms_rows.
    set (l := zip (zip sc boxes) cl).
    set (n := Z.to_nat (k `min` Z.of_nat (length boxes))).
    set (n' := Z.to_nat (k' `min` Z.of_nat (length boxes))).
    replace n' with (n + (n' - n))%nat by (unfold n, n'; lia).
    rewrite <- take_take_drop, filter_app. by eexists. }
  simpl. rewrite Hrest, !fmap_app. split_and!; by eexists.
Qed.

Lemma non_max_suppression_cap_prefix_witness :
  ∃ out out',
    non_max_suppression (Some (Arr1 four_scores)) four_boxes
      (Arr1 four_classes) 1 0.5%Q = Ok out
    ∧ non_max_suppression (Some (Arr1 four_scores)) four_boxes
        (Arr1 four_classes) 4 0.5%Q = Ok out'
    ∧ out.1.1 `prefix_of` out'.1.1
    ∧ out.1.2 `prefix_of` out'.1.2
    ∧ out.2 `prefix_of` out'.2.
Proof.
  apply (non_max_suppression_cap_prefix four_scores four_boxes four_classes
           1 4 0.5%Q); [reflexivity..|lia].
Defined.

(** ** The result filter: edge cases *)

Lemma for_range_first_raise {S} (n : nat) (body : nat → S → result S)
    (s : S) e :
  body 0%nat s = Raise e → for_range (Datatypes.S n) body s = Raise e.
Proof. unfold for_range. simpl. by intros ->. Qed.

Lemma nms_nothing_visited scores boxes classes (max_boxes : Z) thresh :
  max_boxes < 0 ∨ boxes = [] →
  non_max_suppression scores boxes classes max_boxes thresh = Ok ([], [], []).
Proof.
  intros Hk. unfold non_max_suppression. simpl.
  replace (Z.to_nat _) with 0%nat; [done|].
  destruct Hk as [Hk| ->]; simpl; case_decide; lia.
Qed.

(** A negative cap or an empty box sequence gives three empty outputs,
    whatever the scores and classes are (they are never read). *)
Theorem non_max_suppression_nothing_visited scores boxes classes
    (max_boxes : Z) thresh :
  max_boxes < 0 ∨ boxes = [] →
  non_max_suppression scores boxes classes max_boxes thresh = Ok ([], [], []).
Proof.
  intros Hk. unfold non_max_suppression.
  assert (Z.to_nat
            (Z.min (if decide (max_boxes = 0) then Z.of_nat (length boxes)
                    else max_boxes) (Z.of_nat (length boxes))) = 0%nat) as Hn.
  { destruct Hk as [Hk| ->]; simpl; case_decide; lia. }
  simpl. by rewrite Hn.
Qed.

Lemma non_max_suppression_nothing_visited_witness :
  (-1 < 0 ∨ four_boxes = [])
  ∧ non_max_suppression None four_boxes (Arr0 7) (-1) 0.5%Q = Ok ([], [], []).
Proof.
  split; [left; reflexivity|].
  apply (non_max_suppression_nothing_visited None four_boxes (Arr0 7) (-1)
           0.5%Q).
  left. reflexivity.
Defined.

(** With [scores=None] the test of the loop succeeds and the append of
    [scores[i]] raises: the call raises [TypeError] as soon as one
    position is visited. *)
Theorem non_max_suppression_scores_none boxes classes (max_boxes : Z) thresh :
  0 ≤ max_boxes → boxes ≠ [] →
  non_max_suppression None boxes classes max_boxes thresh = Raise TypeError.
Proof.
  intros Hk Hb. unfold non_max_suppression. simpl.
  destruct boxes as [|b boxes]; [done|].
  destruct (Z.to_nat _) as [|n] eqn:Hn.
  { simpl in Hn. case_decide; simpl in *; lia. }
  by apply for_range_first_raise.
Qed.

Lemma non_max_suppression_scores_none_witness :
  0 ≤ 10 ∧ four_boxes ≠ []
  ∧ non_max_suppression None four_boxes (Arr1 four_classes) 10 0.5%Q
    = Raise TypeError.
Proof.
  split; [lia|]. split; [discriminate|].
  apply (non_max_suppression_scores_none four_boxes (Arr1 four_classes) 10
           0.5%Q); [lia|discriminate].
Defined.

Section nms_raise.
Context (sc : list Q) (boxes : list row) (classes : ndarray Z)
  (min_score_thresh : Q).

Lemma nms_body_raise i out e :
  nms_body (Some (Arr1 sc)) boxes classes min_score_thresh i out = Raise e →
  e = IndexError.
Proof.
  destruct out as [[os ob] oc]. unfold nms_body, nd_index, index. simpl.
  destruct (sc !! i) as [s|]; simpl; [|congruence].
  destruct (Qltb min_score_thresh s); [|done].
  destruct (boxes !! i) as [b|]; simpl; [|congruence].
  destruct classes as [?|cl]; simpl; [congruence|].
  destruct (cl !! i); simpl; congruence.
Qed.

Lemma nms_loop_raise n e :
  for_range n (nms_body (Some (Arr1 sc)) boxes classes min_score_thresh)
    ([], [], []) = Raise e →
  e = IndexError.
Proof.
  induction n as [|n IH]; [done|]. rewrite for_range_S.
  destruct (for_range n _ _) as [out|e']; simpl; [|by intros [= <-]; apply IH].
  apply nms_body_raise.
Qed.

Lemma nms_loop_Ok_scores n out :
  for_range n (nms_body (Some (Arr1 sc)) boxes classes min_score_thresh)
    ([], [], []) = Ok out →
  (n ≤ length sc)%nat.
Proof.
  revert out. induction n as [|n IH]; intros out; [lia|].
  rewrite for_range_S. intros H. apply bind_Ok in H as (out0 & H0 & H).
  apply nms_body_Ok in H as (s & Hs & _). simpl in Hs.
  apply lookup_lt_Some in Hs. lia.
Qed.
End nms_raise.

(** When the scores are fewer than the positions visited, the call
    raises [IndexError]; nothing is returned for the positions read
    before. *)
Theorem non_max_suppression_short_scores sc boxes classes (max_boxes : Z)
    thresh :
  (length sc < nms_range boxes max_boxes)%nat →
  non_max_suppression (Some (Arr1 sc)) boxes classes max_boxes thresh
  = Raise IndexError.
Proof.
  intros Hlen.
  destruct (non_max_suppression _ _ _ _ _) as [out|e] eqn:Hn.
  - apply nms_loop_Ok_scores in Hn. unfold nms_range in Hlen. simpl in *. lia.
  - f_equal. by eapply nms_loop_raise.
Qed.

Lemma non_max_suppression_short_scores_witness :
  (length [0.9%Q] < nms_range four_boxes 10)%nat
  ∧ non_max_suppression (Some (Arr1 [0.9%Q])) four_boxes (Arr1 four_classes)
      10 0.5%Q
    = Raise IndexError.
Proof.
  split; [vm_compute; lia|].
  apply (non_max_suppression_short_scores [0.9%Q] four_boxes
           (Arr1 four_classes) 10 0.5%Q).
  vm_compute. lia.
Defined.

(** ** Inference: degenerate outputs *)

Lemma length_squeeze_boxes_pos (boxes : list box) :
  boxes ≠ [] → squeeze_boxes boxes ≠ [].
Proof. by destruct boxes as [|[[[? ?] ?] ?] [|]]. Qed.

(** When the interpreter reports a single candidate, [np.squeeze] turns
    the scores into a 0-d array; the first [scores[i]] of the filter then
    raises and [run_detection] fails with [IndexError]. *)
Theorem run_detection_single_score self image boxes classes (s : Q) :
  interpreter self image = Ok (boxes, classes, [s]) →
  boxes ≠ [] →
  run_detection self image = Raise IndexError.
Proof.
  intros Hi Hb. unfold run_detection. rewrite Hi. simpl.
  apply length_squeeze_boxes_pos in Hb.
  unfold non_max_suppression. simpl.
  destruct (squeeze_boxes boxes) as [|b bs]; [done|].
  destruct (Z.to_nat _) as [|n] eqn:Hn.
  { simpl in Hn. lia. }
  by apply for_range_first_raise.
Qed.

Lemma run_detection_single_score_witness :
  run_detection
    (sample_detector 0.6 [] ([(0, 0, 1, 1)%Q], [inject_Z 0], [0.91%Q])) []
  = Raise IndexError.
Proof.
  apply (run_detection_single_score
           (sample_detector 0.6 [] ([(0, 0, 1, 1)%Q], [inject_Z 0], [0.91%Q]))
           [] [(0, 0, 1, 1)%Q] [inject_Z 0] 0.91%Q); [reflexivity|discriminate].
Defined.

(** When the interpreter reports no box, [detect_frame] returns the empty
    dictionary and leaves the frame alone, with or without drawing. *)
Theorem detect_frame_no_candidates `{cv : Cv2} self frame draw image
    classes scores :
  preprocess_image_for_tflite frame 300 = Ok image →
  interpreter self image = Ok ([], classes, scores) →
  detect_frame self frame draw = (frame, Ok ∅).
Proof.
  intros Hp Hi. unfold detect_frame. rewrite Hp.
  assert (run_detection self image = Ok ([], [], [])) as ->.
  { unfold run_detection. rewrite Hi.
    apply (nms_nothing_visited _ []). by right. }
  by destruct draw.
Qed.

Lemma detect_frame_no_candidates_witness :
  detect_frame (cv := sample_cv2) (sample_detector 0.6 [] ([], [], []))
    sample_frame true
  = (sample_frame, Ok ∅).
Proof.
  eapply (detect_frame_no_candidates (cv := sample_cv2)
            (sample_detector 0.6 [] ([], [], [])) sample_frame true);
    reflexivity.
Defined.

(** ** Aggregation: the catalog *)

Lemma py_index_elem {A} (l : list A) (i : Z) (a : A) :
  py_index l i = Ok a → a ∈ l.
Proof.
  unfold py_index. repeat case_decide; try done;
    intros Hi%index_Ok; by eapply list_elem_of_lookup_2.
Qed.

Lemma py_index_raise {A} (l : list A) (i : Z) e :
  py_index l i = Raise e → e = IndexError.
Proof.
  unfold py_index, index. repeat case_decide;
    repeat 
      match goal with |- context [?l !! ?k] => destruct (l !! k) end;
    congruence.
Qed.

Lemma for_each_raise {I S} (body : I → S → result S) (l : list I) (s : S) e :
  for_each body l s = Raise e → ∃ i s1, i ∈ l ∧ body i s1 = Raise e.
Proof.
  revert s. induction l as [|i l IH]; intros s; [done|].
  rewrite for_each_cons. destruct (body i s) as [s'|e'] eqn:Hb; simpl.
  - intros (i' & s1 & Hin & H)%IH. exists i', s1. split; [by right|done].
  - intros [= <-]. exists i, s. split; [left|done].
Qed.

Lemma detect_body_raise self out_scores ic d e :
  detect_body self out_scores ic d = Raise e → e = IndexError.
Proof.
  destruct ic as [i c]. unfold detect_body.
  destruct (py_index class_names c) as [label|e'] eqn:Hl; simpl.
  - destruct (label_rejected self label); [done|].
    unfold index. destruct (out_scores !! i); simpl; [|congruence].
    by destruct (Qltb _ _).
  - intros [= <-]. by eapply py_index_raise.
Qed.

(** Every key of the aggregated dictionary is a name of the catalog. *)
Theorem aggregate_keys_in_catalog self out_scores out_classes d label :
  aggregate self out_scores out_classes = Ok d →
  label ∈ dom d → label ∈ class_names.
Proof.
  intros Ha [s Hs]%elem_of_dom.
  destruct (aggregate_lookup _ _ _ _ _ _ Ha Hs) as (i & c & _ & Hl & _).
  by eapply py_index_elem.
Qed.

Lemma aggregate_keys_in_catalog_witness :
  aggregate (sample_detector 0.6 [] car_and_dog) [0.7; 0.9]%Q [3; 18]
  = Ok {["car"%string := 0.7%Q; "dog"%string := 0.9%Q]}
  ∧ "dog"%string ∈ class_names.
Proof.
  split; [by vm_compute|].
  apply (aggregate_keys_in_catalog (sample_detector 0.6 [] car_and_dog)
           [0.7; 0.9]%Q [3; 18]
           {["car"%string := 0.7%Q; "dog"%string := 0.9%Q]} "dog"%string).
  - by vm_compute.
  - apply elem_of_dom. exists 0.9%Q. by vm_compute.
Defined.

(** A class index outside [-91, 90] among the filtered detections makes
    the call raise [IndexError], whatever its score and the allow-list,
    and the frame is left as it was. *)
Theorem detect_frame_unknown_class `{cv : Cv2} self frame draw image
    out_scores out_boxes out_classes (i : nat) (c : Z) :
  preprocess_image_for_tflite frame 300 = Ok image →
  run_detection self image = Ok (out_scores, out_boxes, out_classes) →
  out_classes !! i = Some c →
  ¬ (- 91 ≤ c < 91) →
  detect_frame self frame draw = (frame, Raise IndexError).
Proof.
  intros Hp Hr Hc Hrange. unfold detect_frame. rewrite Hp, Hr.
  destruct (aggregate self out_scores out_classes) as [d|e] eqn:Ha.
  - exfalso. apply Hrange.
    apply elem_of_reversed_enumerate in Hc.
    destruct (for_each_Ok_elem _ _ _ _ _ Ha Hc) as (d1 & d2 & Hbody).
    unfold detect_body in Hbody. apply bind_Ok in Hbody as (label & Hl & _).
    by apply (py_index_Ok_iff class_names); eexists.
  - apply for_each_raise in Ha as (ic & d1 & _ & Hbody).
    apply detect_body_raise in Hbody. by subst e.
Qed.

Lemma detect_frame_unknown_class_witness :
  detect_frame (cv := sample_cv2)
    (sample_detector 0.6 ["car"%string]
       ([(0, 0, 1, 1); (0, 0, 1, 1)]%Q, [inject_Z 2; inject_Z 90],
        [0.7; 0.9]%Q))
    sample_frame true
  = (sample_frame, Raise IndexError).
Proof.
  eapply (detect_frame_unknown_class (cv := sample_cv2)
            (sample_detector 0.6 ["car"%string]
               ([(0, 0, 1, 1); (0, 0, 1, 1)]%Q, [inject_Z 2; inject_Z 90],
                [0.7; 0.9]%Q))
            sample_frame true _ _ _ _ 1%nat 91);
    [reflexivity| by vm_compute | reflexivity | lia].
Defined.

(** Aggregation does not raise when every class index is one the catalog
    resolves and there is a score for every class. *)
Theorem aggregate_total self out_scores out_classes :
  Forall (λ c, - 91 ≤ c < 91) out_classes →
  (length out_classes ≤ length out_scores)%nat →
  ∃ d, aggregate self out_scores out_classes = Ok d.
Proof.
  intros Hrange Hlen. apply for_each_total.
  intros [i c] d1 Hin%elem_of_reversed_enumerate.
  destruct (proj2 (py_index_Ok_iff class_names c)) as [label Hl].
  { by apply (Forall_lookup_1 _ _ _ _ Hrange Hin). }
  unfold detect_body. rewrite Hl. simpl.
  destruct (label_rejected self label); [by eexists|].
  destruct (index_lt out_scores i) as [s ->].
  { apply lookup_lt_Some in Hin. lia. }
  simpl. destruct (Qltb _ _); by eexists.
Qed.

Lemma aggregate_total_witness :
  ∃ d, aggregate (sample_detector 0.6 [] car_and_dog) [0.7; 0.9]%Q [-1; 90]
       = Ok d.
Proof.
  apply (aggregate_total (sample_detector 0.6 [] car_and_dog)
           [0.7; 0.9]%Q [-1; 90]).
  - repeat constructor; lia.
  - simpl. lia.
Defined.

(** ** Aggregation: the value of each key *)

Lemma least_below (P : nat → Prop) (n : nat) :
  (∀ j, P j ∨ ¬ P j) →
  (∃ m, (m < n)%nat ∧ P m ∧ ∀ j, (j < m)%nat → ¬ P j)
  ∨ (∀ j, (j < n)%nat → ¬ P j).
Proof.
  intros Hdec. induction n as [|n [(m & Hm & HP & Hleast)|Hnone]].
  - right. lia.
  - left. exists m. split_and!; [lia|done..].
  - destruct (Hdec n) as [HP|HnP].
    + left. exists n. split_and!; [lia|done..].
    + right. intros j Hj. destruct (decide (j = n)) as [->|]; [done|].
      apply Hnone. lia.
Qed.

Lemma accepted_at_dec self out_scores (out_classes : list Z) label (j : nat) :
  (∃ c s, out_classes !! j = Some c ∧ accepted self out_scores (j, c) label s)
  ∨ ¬ (∃ c s, out_classes !! j = Some c
              ∧ accepted self out_scores (j, c) label s).
Proof.
  destruct (out_classes !! j) as [c|] eqn:Hc;
    [|right; by intros (? & ? & [=] & _)].
  unfold accepted. simpl.
  destruct (py_index class_names c) as [l|e] eqn:Hl.
  2: { right. intros (? & ? & [= <-] & Hl' & _). congruence. }
  destruct (decide (l = label)) as [->|Hne].
  2: { right. intros (? & ? & [= <-] & Hl' & _). congruence. }
  destruct (label_rejected self label) eqn:Hrej.
  { right. intros (? & ? & _ & _ & ? & _). congruence. }
  destruct (out_scores !! j) as [s|] eqn:Hs.
  2: { right. intros (? & ? & _ & _ & _ & ? & _). congruence. }
  destruct (Qltb s (min_score self)) eqn:Hlt.
  - right. intros (? & ? & _ & _ & _ & [= <-] & ?). congruence.
  - left. by exists c, s.
Qed.

(** The dictionary maps a label to a score exactly when that score
    belongs to the first detection, in position order, that resolves to
    the label, passes the allow-list and is not below [min_score]. *)
Theorem aggregate_value_spec self out_scores out_classes d label s :
  aggregate self out_scores out_classes = Ok d →
  d !! label = Some s ↔
  ∃ i c, out_classes !! i = Some c
    ∧ accepted self out_scores (i, c) label s
    ∧ ∀ j c' s', (j < i)%nat → out_classes !! j = Some c' →
        ¬ accepted self out_scores (j, c') label s'.
Proof.
  intros Ha. split.
  - intros Hd.
    destruct (aggregate_lookup _ _ _ _ _ _ Ha Hd) as (i0 & c0 & Hc0 & Hacc0).
    set (P := λ j, ∃ c s', out_classes !! j = Some c
                    ∧ accepted self out_scores (j, c) label s').
    assert (∃ m, P m ∧ ∀ j, (j < m)%nat → ¬ P j) as (m & (c & s1 & Hc & Hacc) & Hleast).
    { destruct (least_below P i0) as [(m & _ & HP & Hleast)|Hnone]; [|eauto|].
      - intros j. apply accepted_at_dec.
      - exists i0. split; [|done]. by exists c0, s. }
    assert (∀ j c' s', (j < m)%nat → out_classes !! j = Some c' →
              ¬ accepted self out_scores (j, c') label s') as Hearlier.
    { intros j c' s' Hj Hc' Hacc'. apply (Hleast j Hj). by exists c', s'. }
    pose proof (aggregate_earliest _ _ _ _ _ _ _ _ Ha Hc Hacc Hearlier) as Hd'.
    rewrite Hd in Hd'. injection Hd' as <-. by exists m, c.
  - intros (i & c & Hc & Hacc & Hearlier). by eapply aggregate_earliest.
Qed.

Lemma aggregate_value_spec_witness :
  aggregate (sample_detector 0.6 [] car_and_dog) [0.5; 0.8; 0.9]%Q [3; 3; 3]
  = Ok {["car"%string := 0.8%Q]}
  ∧ ∃ (i : nat) (c : Z),
      [3; 3; 3] !! i = Some c
      ∧ accepted (sample_detector 0.6 [] car_and_dog) [0.5; 0.8; 0.9]%Q
          (i, c) "car" 0.8%Q
      ∧ ∀ j c' s', (j < i)%nat → [3; 3; 3] !! j = Some c' →
          ¬ accepted (sample_detector 0.6 [] car_and_dog)
              [0.5; 0.8; 0.9]%Q (j, c') "car" s'.
Proof.
  split; [by vm_compute|].
  apply (aggregate_value_spec (sample_detector 0.6 [] car_and_dog)
           [0.5; 0.8; 0.9]%Q [3; 3; 3] {["car"%string := 0.8%Q]}
           "car"%string 0.8%Q); by vm_compute.
Defined.

(** ** The pipeline end to end *)

(** Every entry of the dictionary returned by [detect_frame] stems from
    one raw detection among the first ten: its score is the raw score,
    its label the catalog entry of the raw class index plus one. *)
Theorem detect_frame_sound `{cv : Cv2} self frame draw frame' d label s :
  detect_frame self frame draw = (frame', Ok d) →
  d !! label = Some s →
  ∃ image boxes classes scores (i : nat) raw,
    preprocess_image_for_tflite frame 300 = Ok image
    ∧ interpreter self image = Ok (boxes, classes, scores)
    ∧ (i < 10)%nat
    ∧ scores !! i = Some s
    ∧ classes !! i = Some raw
    ∧ py_index class_names (astype_int32 (raw + 1)) = Ok label
    ∧ (0.5 < s)%Q ∧ (min_score self <= s)%Q.
Proof.
  intros Hd Hs.
  apply detect_frame_Ok in Hd as (image & ss & bs & cs & Hp & Hr & Ha).
  apply run_detection_Ok in Hr as (boxes & classes & scores & Hi & Hn).
  destruct (aggregate_lookup _ _ _ _ _ _ Ha Hs)
    as (j & c & Hc & Hl & _ & Hsj & Hge). cbn [fst snd] in *.
  apply nms_collected in Hn as (Hss & _ & Hcs). cbn [fst snd] in *.
  destruct (Forall2_lookup_r _ _ _ _ _ Hss Hsj) as (i & Hki & Hsi).
  destruct (Forall2_lookup_r _ _ _ _ _ Hcs Hc) as (i' & Hki' & Hci).
  rewrite Hki in Hki'. injection Hki' as <-.
  apply list_elem_of_lookup_2, elem_of_kept in Hki as (Hlt & s' & Hs' & Hgt).
  rewrite Hsi in Hs'. injection Hs' as <-.
  apply score_at_squeeze in Hsi.
  apply class_at_squeeze in Hci as (raw & Hraw & ->).
  exists image, boxes, classes, scores, i, raw. split_and!; try done.
  - rewrite nms_range_nonzero in Hlt by done. lia.
  - by apply Qltb_ge.
Qed.

Lemma detect_frame_sound_witness :
  detect_frame (cv := sample_cv2) (sample_detector 0.6 [] person_and_dog)
    sample_frame false
  = (sample_frame, Ok {["person"%string := 0.91%Q]})
  ∧ ∃ image boxes classes scores (i : nat) raw,
      preprocess_image_for_tflite (cv := sample_cv2) sample_frame 300
        = Ok image
      ∧ interpreter (sample_detector 0.6 [] person_and_dog) image
        = Ok (boxes, classes, scores)
      ∧ (i < 10)%nat
      ∧ scores !! i = Some 0.91%Q
      ∧ classes !! i = Some raw
      ∧ py_index class_names (astype_int32 (raw + 1)) = Ok "person"%string
      ∧ (0.5 < 0.91)%Q ∧ (0.6 <= 0.91)%Q.
Proof.
  split; [by vm_compute|].
  apply (detect_frame_sound (cv := sample_cv2)
           (sample_detector 0.6 [] person_and_dog) sample_frame false
           sample_frame {["person"%string := 0.91%Q]} "person"%string 0.91%Q);
    by vm_compute.
Defined.

(** ** Annotation *)





(** When the allow-list excludes the label of every detection,
    [draw_boxes] draws nothing and does not raise. *)
Theorem draw_boxes_all_rejected `{cv : Cv2} self image out_scores out_boxes
    out_classes :
  Forall (λ c, ∃ label, py_index class_names c = Ok label
                        ∧ valid_labels self ≠ []
                        ∧ label ∉ valid_labels self) out_classes →
  draw_boxes self image out_scores out_boxes out_classes = (image, Ok ()).
Proof.
  intros Hall. unfold draw_boxes.
  assert (Forall (λ ic : nat * Z, ∃ label,
            py_index class_names ic.2 = Ok label
            ∧ label_rejected self label = true)
            (reversed_enumerate out_classes)) as Hitems.
  { apply Forall_forall. intros [i c] Hin%elem_of_reversed_enumerate.
    destruct (Forall_lookup_1 _ _ _ _ Hall Hin) as (label & Hl & Hne & Hnin).
    exists label. split; [done|]. unfold label_rejected.
    by rewrite !bool_decide_eq_true_2. }
  induction Hitems as [|[i c] items (label & Hl & Hrej) _ IH]; [done|].
  simpl in *. unfold draw_body at 1. rewrite Hl. simpl. by rewrite Hrej.
Qed.

Lemma draw_boxes_all_rejected_witness :
  draw_boxes (cv := sample_cv2)
    (sample_detector 0.6 ["car"%string] car_and_dog) sample_frame
    [0.9; 0.8]%Q [unit_box; unit_box] [18; 1]
  = (sample_frame, Ok ()).
Proof.
  apply (draw_boxes_all_rejected (cv := sample_cv2)
           (sample_detector 0.6 ["car"%string] car_and_dog) sample_frame
           [0.9; 0.8]%Q [unit_box; unit_box] [18; 1]).
  repeat constructor.
  - exists "dog"%string. split_and!; [done|done|].
    intros [[=]|Hin%elem_of_nil]%elem_of_cons. done.
  - exists "person"%string. split_and!; [done|done|].
    intros [[=]|Hin%elem_of_nil]%elem_of_cons. done.
Defined.

(** ** Drawing and the returned dictionary *)

(** Drawing does not change the answer: a call that returns with [draw]
    set returns the same dictionary without it, on an untouched frame. *)
Theorem detect_frame_draw_same_mapping `{cv : Cv2} self frame frame' d :
  detect_frame self frame true = (frame', Ok d) →
  detect_frame self frame false = (frame, Ok d).
Proof.
  intros (image & ss & bs & cs & Hp & Hr & Ha)%detect_frame_Ok.
  unfold detect_frame. by rewrite Hp, Hr, Ha.
Qed.

Lemma detect_frame_draw_same_mapping_witness :
  detect_frame (cv := sample_cv2) (sample_detector 0.6 [] car_and_dog)
    sample_frame true
  = ([[(0, 0, 0); (40, 50, 60)]],
     Ok {["car"%string := 0.7%Q; "dog"%string := 0.9%Q]})
  ∧ detect_frame (cv := sample_cv2) (sample_detector 0.6 [] car_and_dog)
      sample_frame false
    = (sample_frame, Ok {["car"%string := 0.7%Q; "dog"%string := 0.9%Q]}).
Proof.
  split; [by vm_compute|].
  apply (detect_frame_draw_same_mapping (cv := sample_cv2)
           (sample_detector 0.6 [] car_and_dog) sample_frame
           [[(0, 0, 0); (40, 50, 60)]]).
  by vm_compute.
Defined.

(** ** The minimum score and the drawing *)

Lemma detect_body_min_score_status self m out_scores ic d d' :
  match detect_body self out_scores ic d,
        detect_body (with_min_score m self) out_scores ic d' with
  | Ok _, Ok _ => True
  | Raise e, Raise e' => e = e'
  | _, _ => False
  end.
Proof.
  destruct ic as [i c]. unfold detect_body.
  destruct (py_index class_names c) as [label|e]; simpl; [|done].
  change (label_rejected (with_min_score m self) label)
    with (label_rejected self label).
  destruct (label_rejected self label); [done|].
  destruct (index out_scores i) as [s|e]; simpl; [|done].
  by destruct (Qltb s (min_score self)), (Qltb s m).
Qed.

Lemma aggregate_min_score_status self m out_scores items d d' :
  match for_each (detect_body self out_scores) items d,
        for_each (detect_body (with_min_score m self) out_scores) items d' with
  | Ok _, Ok _ => True
  | Raise e, Raise e' => e = e'
  | _, _ => False
  end.
Proof.
  revert d d'. induction items as [|ic items IH]; intros d d'; [done|].
  rewrite !for_each_cons.
  pose proof (detect_body_min_score_status self m out_scores ic d d') as Hb.
  destruct (detect_body self out_scores ic d) as [d1|e],
    (detect_body (with_min_score m self) out_scores ic d') as [d1'|e'];
    simpl; try done.
  apply IH.
Qed.

(** The minimum score decides which detections are reported, not which
    are drawn: the frame a call leaves behind, and whether and how the
    call raises, are the same for every [min_score]. *)
Theorem detect_frame_min_score_frame `{cv : Cv2} self (m : Q) frame draw :
  (detect_frame (with_min_score m self) frame draw).1
  = (detect_frame self frame draw).1
  ∧ ∀ e, (detect_frame (with_min_score m self) frame draw).2 = Raise e
         ↔ (detect_frame self frame draw).2 = Raise e.
Proof.
  unfold detect_frame.
  destruct (preprocess_image_for_tflite frame 300) as [image|e0]; [|done].
  change (run_detection (with_min_score m self) image)
    with (run_detection self image).
  destruct (run_detection self image) as [[[ss bs] cs]|e0]; [|done].
  pose proof (aggregate_min_score_status self m ss
                (reversed_enumerate cs) ∅ ∅) as Hst.
  unfold aggregate.
  destruct (for_each (detect_body self ss) _ ∅) as [d|e1],
    (for_each (detect_body (with_min_score m self) ss) _ ∅) as [d'|e1'];
    try done.
  - destruct draw; [|done].
    change (draw_boxes (with_min_score m self) frame ss bs cs)
      with (draw_boxes self frame ss bs cs).
    by destruct (draw_boxes self frame ss bs cs) as [frame' [[]|e2]].
  - by subst e1'.
Qed.

(** ** Preprocessing *)

(** [preprocess_image] raises exactly on empty frames; otherwise it
    returns a batch of one image with the rows and columns of the frame,
    whose pixel at a position holds the channels of the frame's pixel in
    reverse order. *)
Theorem preprocess_image_pixels (image : Mat) (model_image_size : Z * Z) :
  if img_empty image then
    preprocess_image image model_image_size = Raise InvalidInput
  else
    ∃ t0, preprocess_image image model_image_size = Ok [t0]
      ∧ length t0 = height image
      ∧ ∀ (y x : nat) row0 b g r,
          image !! y = Some row0 → row0 !! x = Some (b, g, r) →
          ∃ trow, t0 !! y = Some trow
            ∧ length trow = length row0
            ∧ trow !! x = Some (inject_Z r, inject_Z g, inject_Z b).
Proof.
  unfold preprocess_image, cvtColor_BGR2RGB.
  destruct (img_empty image); [done|]. simpl.
  eexists. split; [done|]. split; [by rewrite !length_fmap|].
  intros y x row0 b g r Hy Hx.
  exists (to_float32 <$> ((λ '(b, g, r), (r, g, b)) <$> row0)).
  split_and!.
  - unfold Mat, color in *. by rewrite !list_lookup_fmap, Hy.
  - by rewrite !length_fmap.
  - unfold color in *. by rewrite !list_lookup_fmap, Hx.
Qed.

Lemma normalise_unit_range (p : color) : channel_ok p → unit_range (normalise p).
Proof.
  destruct p as [[r g] b]. intros (Hr & Hg & Hb). simpl.
  assert (∀ x : Z, 0 ≤ x ≤ 255 →
            (-1 <= 2 / 255 * inject_Z x - 1 <= 1)%Q) as Hch.
  { intros x [H0 H1]. rewrite Zle_Qle in H0, H1.
    change (inject_Z 0) with 0%Q in H0. change (inject_Z 255) with 255%Q in H1.
    assert (2 / 255 == 2 # 255)%Q as -> by reflexivity. split; lra. }
  auto.
Qed.

(** When the resized frame is an 8-bit image, the tensor returned by
    [preprocess_image_for_tflite] is a batch of one image with as many
    rows, and every channel value lies between -1 and 1. *)
Theorem preprocess_image_for_tflite_range `{cv : Cv2} (image : Mat)
    (model_image_size : Z) rgb t :
  cvtColor_BGR2RGB image = Ok rgb →
  Forall (Forall channel_ok)
    (cv2_resize rgb (model_image_size, model_image_size)) →
  preprocess_image_for_tflite image model_image_size = Ok t →
  ∃ t0, t = [t0]
    ∧ length t0
      = length (cv2_resize rgb (model_image_size, model_image_size))
    ∧ Forall (Forall unit_range) t0.
Proof.
  intros Hrgb H8 Ht. unfold preprocess_image_for_tflite in Ht.
  rewrite Hrgb in Ht. simpl in Ht. injection Ht as <-.
  eexists. split; [done|]. split; [by rewrite length_fmap|].
  apply Forall_fmap. eapply Forall_impl; [exact H8|].
  intros r Hr. simpl. apply Forall_fmap.
  eapply Forall_impl; [exact Hr|]. apply normalise_unit_range.
Qed.

Lemma preprocess_image_for_tflite_range_witness :
  ∃ t0,
    preprocess_image_for_tflite (cv := sample_cv2) sample_frame 2 = Ok [t0]
    ∧ length t0 = 2%nat
    ∧ Forall (Forall unit_range) t0.
Proof.
  edestruct (preprocess_image_for_tflite_range (cv := sample_cv2)
               sample_frame 2 [[(30, 20, 10); (60, 50, 40)]])
    as (t0 & Ht & Hlen & Hrange).
  - reflexivity.
  - vm_compute. repeat constructor; discriminate.
  - reflexivity.
  - exists t0. split; [by rewrite <- Ht|]. split; [exact Hlen|exact Hrange].
Defined.

(** ** The constructed detector *)

Lemma hue_wheel_catalog_distinct : NoDup (hue_wheel (length class_names)).
Proof. apply (bool_decide_unpack _). by vm_compute. Qed.

(** Given a loaded interpreter, [__init__] does not raise: it stores the
    minimum score and the allow-list (the empty one when none is given),
    builds one colour per catalog entry, no two alike, and leaves the
    random generator freshly seeded. *)
Theorem init_detector `{rnd : PyRandom} interp valid_labels' min_score'
    st entropy :
  ∃ self,
    init interp valid_labels' min_score' st entropy = (entropy, Ok self)
    ∧ min_score self = min_score'
    ∧ valid_labels self = default [] valid_labels'
    ∧ interpreter self = interp
    ∧ length (colors self) = length class_names
    ∧ NoDup (colors self).
Proof.
  unfold init.
  destruct (generate_colors_Ok class_names st entropy) as (cols & -> & Hperm).
  eexists. split_and!; try done; simpl.
  - by rewrite (Permutation_length Hperm), length_hue_wheel.
  - rewrite Hperm. apply hue_wheel_catalog_distinct.
Qed.

